(** * Paper-trading ledger and daily-loss risk gate

    A shallow embedding of the trading core of the repository:
    - [risk_manager]: [risk/risk_manager.py], the [RiskManager] with its
      [trading_allowed] latch;
    - [paper_trade]: [execution/paper_trade.py], [Trade] and [PaperTrader];
    - [main]: [main.py], the script-level [RiskManager] and its main loop.

    Conventions of the embedding.
    - Python numbers (prices, quantities, PnL) are exact rationals [Q]:
      [+], [-], [*], [/] and the comparisons are those of [Q]; rounding of
      binary floating point is not modelled.  Division by zero raises
      [ZeroDivisionError], as in Python.
    - [datetime.now()] is an explicit argument of every operation that
      reads the clock; a [datetime] is a calendar day and a time of day.
    - A method is a function from the object before the call to an outcome
      and the object after it; a raised exception is an outcome, so that
      what a failing call has already mutated stays visible. *)

From Stdlib Require Import QArith Qabs ZArith List Bool Lia Lqa.
From stdpp Require Import base option list gmap strings.

Local Open Scope Q_scope.

(** ** Numbers and time *)

Definition Qleb (x y : Q) : bool := Qle_bool x y.
Definition Qltb (x y : Q) : bool := negb (Qle_bool y x).

(** [datetime]: [dt_date] is [d.date()], [dt_clock] the time within the day. *)
Record datetime : Type := mk_datetime { dt_date : Z; dt_clock : Z }.

(** [x or datetime.now()] for an [Optional[datetime]] argument. *)
Definition or_now (x : option datetime) (now : datetime) : datetime :=
  match x with Some t => t | None => now end.

(** ** Outcomes of a call *)

(** The Python exceptions the modelled code can raise.  [DanglingRef] has
    no Python counterpart: it is the outcome of following a reference that
    the object store does not bind, which no Python state can hold. *)
Inductive exn : Type :=
| ValueError (msg : string)
| ZeroDivisionError
| KeyError
| TypeError
| DanglingRef.

Inductive outcome (A : Type) : Type :=
| Returns (a : A)
| Raises (e : exn).
Arguments Returns {A} a.
Arguments Raises {A} e.

(** Methods that can raise: a state and exception monad over the object. *)
Definition M (S A : Type) : Type := S -> outcome A * S.

#[global] Instance M_ret {S} : MRet (M S) := fun A a s => (Returns a, s).

#[global] Instance M_bind {S} : MBind (M S) := fun A B f m s =>
  match m s with
  | (Returns a, s') => f a s'
  | (Raises e, s') => (Raises e, s')
  end.

Definition raise {S A} (e : exn) : M S A := fun s => (Raises e, s).
Definition get {S} : M S S := fun s => (Returns s, s).
Definition modify {S} (f : S -> S) : M S unit := fun s => (Returns tt, f s).

(** Python's [sum(l)]: starts at 0 and adds from the left. *)
Definition py_sum (l : list Q) : Q := fold_left Qplus l 0.

(** An [int] (a count, a [len]) used in a division. *)
Definition Qnat (n : nat) : Q := inject_Z (Z.of_nat n).

(** ** risk/risk_manager.py *)

Module risk_manager.

Record TradeEntry : Type := mk_entry {
  timestamp : datetime;
  pnl : Q;
  cumulative_pnl : Q;
  trade_id : option string }.

Record RiskManager : Type := mk_rm {
  max_daily_loss : Q;
  daily_pnl : Q;
  trading_allowed : bool;
  session_date : Z;
  trades : list TradeEntry }.

Record Status : Type := mk_status {
  st_trading_allowed : bool;
  st_daily_pnl : Q;
  st_max_daily_loss : Q;
  st_remaining_loss_budget : Q;
  st_num_trades : nat;
  st_session_date : Z }.

Definition __init__ (now : datetime) (max_daily_loss : Q) : outcome RiskManager :=
  if Qleb 0 max_daily_loss
  then Raises (ValueError "max_daily_loss must be negative (e.g., -1000)")
  else Returns {| max_daily_loss := max_daily_loss;
                  daily_pnl := 0;
                  trading_allowed := true;
                  session_date := dt_date now;
                  trades := [] |}.

Definition reset_daily_pnl (self : RiskManager) : RiskManager :=
  {| max_daily_loss := max_daily_loss self;
     daily_pnl := 0;
     trading_allowed := true;
     session_date := session_date self;
     trades := [] |}.

Definition _check_date_reset (now : datetime) (self : RiskManager) : RiskManager :=
  let current_date := dt_date now in
  if negb (current_date =? session_date self)%Z
  then let self := reset_daily_pnl self in
       {| max_daily_loss := max_daily_loss self;
          daily_pnl := daily_pnl self;
          trading_allowed := trading_allowed self;
          session_date := current_date;
          trades := trades self |}
  else self.

(** [now] is the clock read by the rollover check, [stamp] the clock read
    when the accepted trade is logged. *)
Definition update_pnl (now stamp : datetime) (pnl : Q) (trade_id : option string)
    (self : RiskManager) : bool * RiskManager :=
  let self := _check_date_reset now self in
  if negb (trading_allowed self) then (false, self)
  else
    let new_pnl := daily_pnl self + pnl in
    if Qltb new_pnl (max_daily_loss self) then (false, self)
    else
      let logged := trades self ++
        [ {| timestamp := stamp; pnl := pnl;
             cumulative_pnl := new_pnl; trade_id := trade_id |} ] in
      (true,
       {| max_daily_loss := max_daily_loss self;
          daily_pnl := new_pnl;
          trading_allowed :=
            if Qleb new_pnl (max_daily_loss self) then false
            else trading_allowed self;
          session_date := session_date self;
          trades := logged |}).

Definition is_trading_allowed (now : datetime) (self : RiskManager)
    : bool * RiskManager :=
  let self := _check_date_reset now self in
  (trading_allowed self, self).

Definition get_daily_pnl (now : datetime) (self : RiskManager) : Q * RiskManager :=
  let self := _check_date_reset now self in
  (daily_pnl self, self).

Definition get_remaining_loss_budget (now : datetime) (self : RiskManager)
    : Q * RiskManager :=
  let self := _check_date_reset now self in
  (max_daily_loss self - daily_pnl self, self).

Definition get_trade_history (now : datetime) (self : RiskManager)
    : list TradeEntry * RiskManager :=
  let self := _check_date_reset now self in
  (trades self, self).

(** [get_status] reads the clock twice: once itself and once inside
    [get_remaining_loss_budget]; the fields of the dictionary are evaluated
    in the order written. *)
Definition get_status (now now' : datetime) (self : RiskManager)
    : Status * RiskManager :=
  let self := _check_date_reset now self in
  let ta := trading_allowed self in
  let dp := daily_pnl self in
  let mdl := max_daily_loss self in
  let '(budget, self) := get_remaining_loss_budget now' self in
  ({| st_trading_allowed := ta;
      st_daily_pnl := dp;
      st_max_daily_loss := mdl;
      st_remaining_loss_budget := budget;
      st_num_trades := length (trades self);
      st_session_date := session_date self |}, self).

(** The public calls on a [RiskManager], each with the clock values it
    reads, and the state after a call and after a sequence of calls. *)
Inductive call : Type :=
| CallUpdatePnl (now stamp : datetime) (pnl : Q) (trade_id : option string)
| CallIsTradingAllowed (now : datetime)
| CallGetDailyPnl (now : datetime)
| CallGetRemainingLossBudget (now : datetime)
| CallGetTradeHistory (now : datetime)
| CallGetStatus (now now' : datetime)
| CallResetDailyPnl.

Definition exec (c : call) (self : RiskManager) : RiskManager :=
  match c with
  | CallUpdatePnl now stamp pnl tid => snd (update_pnl now stamp pnl tid self)
  | CallIsTradingAllowed now => snd (is_trading_allowed now self)
  | CallGetDailyPnl now => snd (get_daily_pnl now self)
  | CallGetRemainingLossBudget now => snd (get_remaining_loss_budget now self)
  | CallGetTradeHistory now => snd (get_trade_history now self)
  | CallGetStatus now now' => snd (get_status now now' self)
  | CallResetDailyPnl => reset_daily_pnl self
  end.

Definition exec_all (cs : list call) (self : RiskManager) : RiskManager :=
  fold_left (fun s c => exec c s) cs self.

(** A call stays within the session day [d]: every clock value it reads is
    on day [d], and it is not the explicit rollover. *)
Definition same_day (d : Z) (c : call) : Prop :=
  match c with
  | CallUpdatePnl now _ _ _ => dt_date now = d
  | CallIsTradingAllowed now | CallGetDailyPnl now
  | CallGetRemainingLossBudget now | CallGetTradeHistory now => dt_date now = d
  | CallGetStatus now now' => dt_date now = d /\ dt_date now' = d
  | CallResetDailyPnl => False
  end.

(** *** Vocabulary of the properties *)

(** The limit is kept and is a floor of [daily_pnl]. *)
Definition above_limit (mdl : Q) (s : RiskManager) : Prop :=
  max_daily_loss s = mdl /\ mdl <= daily_pnl s.

(** The log accounts for the day: [daily_pnl] is the sum of the logged
    PnLs, and the [cumulative_pnl] of each entry is the sum up to it. *)
Definition log_consistent (s : RiskManager) : Prop :=
  daily_pnl s = py_sum (pnl <$> trades s) /\
  forall (i : nat) (e : TradeEntry),
    trades s !! i = Some e ->
    cumulative_pnl e = py_sum (pnl <$> take (S i) (trades s)).

(** The latch is closed exactly when the day's PnL sits on the limit. *)
Definition latch_on_limit (s : RiskManager) : Prop :=
  trading_allowed s = false <-> daily_pnl s == max_daily_loss s.

(** A [Status] describes the manager [s]. *)
Definition describes (st : Status) (s : RiskManager) : Prop :=
  st_trading_allowed st = trading_allowed s /\
  st_daily_pnl st = daily_pnl s /\
  st_max_daily_loss st = max_daily_loss s /\
  st_remaining_loss_budget st = max_daily_loss s - daily_pnl s /\
  st_num_trades st = length (trades s) /\
  st_session_date st = session_date s.

(** What every call keeps, given a negative limit. *)
Definition kept (mdl : Q) (s : RiskManager) : Prop :=
  above_limit mdl s /\ latch_on_limit s /\ log_consistent s.

End risk_manager.

(** ** execution/paper_trade.py *)

Module paper_trade.

Inductive TradeStatus : Type :=
| OPEN
| CLOSED_PROFIT
| CLOSED_LOSS
| CLOSED_STOPPED.

Record Trade : Type := mk_trade {
  trade_id : string;
  entry_price : Q;
  stop_loss : Q;
  target_price : Q;
  quantity : Q;
  entry_time : datetime;
  exit_price : option Q;
  exit_time : option datetime;
  status : TradeStatus;
  pnl : option Q;
  pnl_percent : option Q;
  exit_reason : option string }.

(** Attribute assignments [self.f = v]. *)
Definition set_exit_price (v : option Q) (t : Trade) : Trade :=
  mk_trade (trade_id t) (entry_price t) (stop_loss t) (target_price t)
    (quantity t) (entry_time t) v (exit_time t) (status t) (pnl t)
    (pnl_percent t) (exit_reason t).
Definition set_exit_time (v : option datetime) (t : Trade) : Trade :=
  mk_trade (trade_id t) (entry_price t) (stop_loss t) (target_price t)
    (quantity t) (entry_time t) (exit_price t) v (status t) (pnl t)
    (pnl_percent t) (exit_reason t).
Definition set_status (v : TradeStatus) (t : Trade) : Trade :=
  mk_trade (trade_id t) (entry_price t) (stop_loss t) (target_price t)
    (quantity t) (entry_time t) (exit_price t) (exit_time t) v (pnl t)
    (pnl_percent t) (exit_reason t).
Definition set_pnl (v : option Q) (t : Trade) : Trade :=
  mk_trade (trade_id t) (entry_price t) (stop_loss t) (target_price t)
    (quantity t) (entry_time t) (exit_price t) (exit_time t) (status t) v
    (pnl_percent t) (exit_reason t).
Definition set_pnl_percent (v : option Q) (t : Trade) : Trade :=
  mk_trade (trade_id t) (entry_price t) (stop_loss t) (target_price t)
    (quantity t) (entry_time t) (exit_price t) (exit_time t) (status t) (pnl t)
    v (exit_reason t).
Definition set_exit_reason (v : option string) (t : Trade) : Trade :=
  mk_trade (trade_id t) (entry_price t) (stop_loss t) (target_price t)
    (quantity t) (entry_time t) (exit_price t) (exit_time t) (status t) (pnl t)
    (pnl_percent t) v.

(** [Trade.__init__]. *)
Definition Trade__init__ (now : datetime) (trade_id : string)
    (entry_price stop_loss target_price quantity : Q)
    (entry_time : option datetime) : Trade :=
  {| trade_id := trade_id;
     entry_price := entry_price;
     stop_loss := stop_loss;
     target_price := target_price;
     quantity := quantity;
     entry_time := or_now entry_time now;
     exit_price := None;
     exit_time := None;
     status := OPEN;
     pnl := None;
     pnl_percent := None;
     exit_reason := None |}.

(** [pnl] is assigned before the division that computes [pnl_percent], so a
    zero entry price raises with [pnl] already set. *)
Definition _calculate_pnl : M Trade unit :=
  self ← get;
  match exit_price self with
  | None => mret tt
  | Some exit_price =>
      let price_diff := exit_price - entry_price self in
      modify (set_pnl (Some (price_diff * quantity self)));;
      if Qeq_bool (entry_price self) 0 then raise ZeroDivisionError
      else modify (set_pnl_percent (Some ((price_diff / entry_price self) * 100)))
  end.

Definition close_at_target (now : datetime) (exit_time : option datetime)
    : M Trade unit :=
  self ← get;
  modify (set_exit_price (Some (target_price self)));;
  modify (set_exit_time (Some (or_now exit_time now)));;
  modify (set_status CLOSED_PROFIT);;
  modify (set_exit_reason (Some "TARGET_HIT"));;
  _calculate_pnl.

Definition close_at_stop_loss (now : datetime) (exit_time : option datetime)
    : M Trade unit :=
  self ← get;
  modify (set_exit_price (Some (stop_loss self)));;
  modify (set_exit_time (Some (or_now exit_time now)));;
  modify (set_status CLOSED_STOPPED);;
  modify (set_exit_reason (Some "STOP_LOSS_HIT"));;
  _calculate_pnl.

Definition close_at_price (now : datetime) (exit_price : Q)
    (exit_time : option datetime) (reason : string) : M Trade unit :=
  modify (set_exit_price (Some exit_price));;
  modify (set_exit_time (Some (or_now exit_time now)));;
  modify (set_exit_reason (Some reason));;
  _calculate_pnl;;
  self ← get;
  if Qleb (target_price self) exit_price then modify (set_status CLOSED_PROFIT)
  else if Qleb exit_price (stop_loss self) then modify (set_status CLOSED_STOPPED)
  else modify (set_status CLOSED_LOSS).

Definition is_open (self : Trade) : bool :=
  match status self with OPEN => true | _ => false end.

(** *** PaperTrader

    The three collections of a [PaperTrader] hold references to the same
    [Trade] objects: closing a trade through [open_trades] is seen through
    [trades] as well.  [objects] is the store of the [Trade] objects, a
    reference is an index into it. *)
Definition ref : Type := nat.

Record PaperTrader : Type := mk_pt {
  objects : list Trade;
  trades : list ref;
  open_trades : gmap string ref;
  closed_trades : list ref;
  total_pnl : Q }.

Definition set_objects (v : list Trade) (p : PaperTrader) : PaperTrader :=
  mk_pt v (trades p) (open_trades p) (closed_trades p) (total_pnl p).
Definition set_trades (v : list ref) (p : PaperTrader) : PaperTrader :=
  mk_pt (objects p) v (open_trades p) (closed_trades p) (total_pnl p).
Definition set_open_trades (v : gmap string ref) (p : PaperTrader) : PaperTrader :=
  mk_pt (objects p) (trades p) v (closed_trades p) (total_pnl p).
Definition set_closed_trades (v : list ref) (p : PaperTrader) : PaperTrader :=
  mk_pt (objects p) (trades p) (open_trades p) v (total_pnl p).
Definition set_total_pnl (v : Q) (p : PaperTrader) : PaperTrader :=
  mk_pt (objects p) (trades p) (open_trades p) (closed_trades p) v.

(** [PaperTrader.__init__]. *)
Definition PaperTrader__init__ : PaperTrader :=
  {| objects := []; trades := []; open_trades := ∅;
     closed_trades := []; total_pnl := 0 |}.

(** Reading an object, reading a list of objects, calling a method on an
    object, and creating one. *)
Definition deref (r : ref) : M PaperTrader Trade := fun self =>
  match objects self !! r with
  | Some t => (Returns t, self)
  | None => (Raises DanglingRef, self)
  end.

Definition deref_all (rs : list ref) : M PaperTrader (list Trade) := fun self =>
  match mapM (fun r : ref => objects self !! r) rs with
  | Some ts => (Returns ts, self)
  | None => (Raises DanglingRef, self)
  end.

Definition on_object {A} (r : ref) (m : M Trade A) : M PaperTrader A := fun self =>
  match objects self !! r with
  | Some t => let '(o, t') := m t in (o, set_objects (<[r := t']> (objects self)) self)
  | None => (Raises DanglingRef, self)
  end.

Definition new_object (t : Trade) : M PaperTrader ref := fun self =>
  (Returns (length (objects self)), set_objects (objects self ++ [t]) self).

Definition enter_trade (now : datetime) (trade_id : string)
    (entry_price stop_loss target_price quantity : Q)
    (entry_time : option datetime) : M PaperTrader ref :=
  self ← get;
  closed ← deref_all (closed_trades self);
  if bool_decide (is_Some (open_trades self !! trade_id))
     || existsb (fun t => String.eqb (paper_trade.trade_id t) trade_id) closed
  then raise (ValueError ("Trade with ID '" +:+ trade_id +:+ "' already exists"))
  else if Qleb entry_price 0 then raise (ValueError "entry_price must be positive")
  else if Qleb stop_loss 0 then raise (ValueError "stop_loss must be positive")
  else if Qleb target_price 0 then raise (ValueError "target_price must be positive")
  else if Qleb quantity 0 then raise (ValueError "quantity must be positive")
  else if Qleb entry_price stop_loss
  then raise (ValueError "stop_loss must be below entry_price for long trades")
  else if Qleb target_price entry_price
  then raise (ValueError "target_price must be above entry_price for long trades")
  else
    trade ← new_object (Trade__init__ now trade_id entry_price stop_loss
                          target_price quantity entry_time);
    modify (fun self => set_trades (trades self ++ [trade]) self);;
    modify (fun self => set_open_trades (<[trade_id := trade]> (open_trades self)) self);;
    mret trade.

Definition _move_to_closed (trade_id : string) : M PaperTrader unit :=
  self ← get;
  match open_trades self !! trade_id with
  | None => raise KeyError
  | Some trade =>
      modify (fun self => set_open_trades (delete trade_id (open_trades self)) self);;
      modify (fun self => set_closed_trades (closed_trades self ++ [trade]) self);;
      t ← deref trade;
      match pnl t with
      | Some p => modify (fun self => set_total_pnl (total_pnl self + p) self)
      | None => mret tt
      end
  end.

Definition exit_trade_at_target (now : datetime) (trade_id : string)
    (exit_time : option datetime) : M PaperTrader bool :=
  self ← get;
  match open_trades self !! trade_id with
  | None => mret false
  | Some trade =>
      on_object trade (close_at_target now exit_time);;
      _move_to_closed trade_id;;
      mret true
  end.

Definition exit_trade_at_stop_loss (now : datetime) (trade_id : string)
    (exit_time : option datetime) : M PaperTrader bool :=
  self ← get;
  match open_trades self !! trade_id with
  | None => mret false
  | Some trade =>
      on_object trade (close_at_stop_loss now exit_time);;
      _move_to_closed trade_id;;
      mret true
  end.

Definition exit_trade_at_price (now : datetime) (trade_id : string)
    (exit_price : Q) (exit_time : option datetime) (reason : string)
    : M PaperTrader bool :=
  self ← get;
  match open_trades self !! trade_id with
  | None => mret false
  | Some trade =>
      on_object trade (close_at_price now exit_price exit_time reason);;
      _move_to_closed trade_id;;
      mret true
  end.

Definition get_pnl_list : M PaperTrader (list Q) :=
  self ← get;
  closed ← deref_all (closed_trades self);
  mret (omap pnl closed).

Definition get_total_pnl : M PaperTrader Q :=
  self ← get; mret (total_pnl self).

Definition is_winner (t : Trade) : bool :=
  match pnl t with Some p => Qltb 0 p | None => false end.

Definition get_win_rate : M PaperTrader Q :=
  self ← get;
  closed ← deref_all (closed_trades self);
  match closed with
  | [] => mret 0
  | _ =>
      let winning_trades := length (List.filter is_winner closed) in
      mret ((Qnat winning_trades / Qnat (length closed)) * 100)
  end.

Record Statistics : Type := mk_stats {
  total_trades : nat;
  n_open_trades : nat;
  n_closed_trades : nat;
  stats_total_pnl : Q;
  win_rate : Q;
  avg_win : Q;
  avg_loss : Q;
  profit_factor : Q }.

Definition get_statistics : M PaperTrader Statistics :=
  closed_pnls ← get_pnl_list;
  self ← get;
  match closed_pnls with
  | [] =>
      mret {| total_trades := length (trades self);
              n_open_trades := size (open_trades self);
              n_closed_trades := length (closed_trades self);
              stats_total_pnl := 0;
              win_rate := 0;
              avg_win := 0;
              avg_loss := 0;
              profit_factor := 0 |}
  | _ =>
      let winning_pnls := List.filter (fun pnl => Qltb 0 pnl) closed_pnls in
      let losing_pnls := List.filter (fun pnl => Qltb pnl 0) closed_pnls in
      let avg_win :=
        match winning_pnls with
        | [] => 0
        | _ => py_sum winning_pnls / Qnat (length winning_pnls)
        end in
      let avg_loss :=
        match losing_pnls with
        | [] => 0
        | _ => py_sum losing_pnls / Qnat (length losing_pnls)
        end in
      let gross_profit := py_sum winning_pnls in
      let gross_loss := Qabs (py_sum losing_pnls) in
      let profit_factor :=
        if Qltb 0 gross_loss then gross_profit / gross_loss else 0 in
      wr ← get_win_rate;
      mret {| total_trades := length (trades self);
              n_open_trades := size (open_trades self);
              n_closed_trades := length (closed_trades self);
              stats_total_pnl := total_pnl self;
              win_rate := wr;
              avg_win := avg_win;
              avg_loss := avg_loss;
              profit_factor := profit_factor |}
  end.

(** The mutating calls on a ledger and the state after a sequence of them,
    whatever each call returned or raised. *)
Inductive call : Type :=
| CallEnterTrade (now : datetime) (trade_id : string)
    (entry_price stop_loss target_price quantity : Q) (entry_time : option datetime)
| CallExitAtTarget (now : datetime) (trade_id : string) (exit_time : option datetime)
| CallExitAtStopLoss (now : datetime) (trade_id : string) (exit_time : option datetime)
| CallExitAtPrice (now : datetime) (trade_id : string) (exit_price : Q)
    (exit_time : option datetime) (reason : string).

Definition exec (c : call) (self : PaperTrader) : PaperTrader :=
  match c with
  | CallEnterTrade now id e s t q et => snd (enter_trade now id e s t q et self)
  | CallExitAtTarget now id et => snd (exit_trade_at_target now id et self)
  | CallExitAtStopLoss now id et => snd (exit_trade_at_stop_loss now id et self)
  | CallExitAtPrice now id p et r => snd (exit_trade_at_price now id p et r self)
  end.

Definition exec_all (cs : list call) (self : PaperTrader) : PaperTrader :=
  fold_left (fun s c => exec c s) cs self.

(** The trade identifiers held by a list of references. *)
Definition ids_at (self : PaperTrader) (rs : list ref) : list string :=
  omap (fun r : ref => trade_id <$> objects self !! r) rs.

(** [get_trade]: the open trade under this id, else the first closed trade
    that carries it, else [None]. *)
Fixpoint find_by_id (trade_id : string) (rs : list ref)
    : M PaperTrader (option ref) :=
  match rs with
  | [] => mret None
  | trade :: rs =>
      t ← deref trade;
      if String.eqb (paper_trade.trade_id t) trade_id then mret (Some trade)
      else find_by_id trade_id rs
  end.

Definition get_trade (trade_id : string) : M PaperTrader (option ref) :=
  self ← get;
  match open_trades self !! trade_id with
  | Some trade => mret (Some trade)
  | None => find_by_id trade_id (closed_trades self)
  end.

(** *** Vocabulary of the properties *)

(** What a close leaves in the trade, once the exit price [e] is known:
    every exit field is set and the PnL fields follow the formulas. *)
Definition closed_as (t : Trade) (e : Q) (et : datetime) (st : TradeStatus)
    (reason : string) : Trade :=
  mk_trade (trade_id t) (entry_price t) (stop_loss t) (target_price t)
    (quantity t) (entry_time t) (Some e) (Some et) st
    (Some ((e - entry_price t) * quantity t))
    (Some (((e - entry_price t) / entry_price t) * 100)) (Some reason).

Definition status_at_price (t : Trade) (p : Q) : TradeStatus :=
  if Qleb (target_price t) p then CLOSED_PROFIT
  else if Qleb p (stop_loss t) then CLOSED_STOPPED
  else CLOSED_LOSS.

(** The PnL fields of a closed trade follow the formulas, on its own exit
    price, entry price and quantity. *)
Definition pnl_correct (t : Trade) : Prop :=
  exists e,
    exit_price t = Some e /\
    pnl t = Some ((e - entry_price t) * quantity t) /\
    pnl_percent t = Some (((e - entry_price t) / entry_price t) * 100).

(** Every reference of the closed sequence is bound in the object store. *)
Definition closed_bound (self : PaperTrader) : Prop :=
  Forall (fun r : ref => is_Some (objects self !! r)) (closed_trades self).

(** The conditions under which [enter_trade] rejects the call. *)
Definition rejects (self : PaperTrader) (id : string) (e s t q : Q) : Prop :=
  is_Some (open_trades self !! id) \/
  id ∈ ids_at self (closed_trades self) \/
  e <= 0 \/ s <= 0 \/ t <= 0 \/ q <= 0 \/ e <= s \/ t <= e.

(** The common shape of the three [exit_trade_at_*] methods, over the
    [Trade] transition they call. *)
Definition exit_via (close : M Trade unit) (trade_id : string)
    : M PaperTrader bool :=
  self ← get;
  match open_trades self !! trade_id with
  | None => mret false
  | Some trade =>
      on_object trade close;;
      _move_to_closed trade_id;;
      mret true
  end.

(** The ledger after the trade at [r] was closed as [t'] with PnL [v]. *)
Definition moved_to_closed (self : PaperTrader) (id : string) (r : ref)
    (t' : Trade) (v : Q) : PaperTrader :=
  mk_pt (<[r := t']> (objects self)) (trades self)
        (delete id (open_trades self)) (closed_trades self ++ [r])
        (total_pnl self + v).

(** The invariant of the ledger, which [enter_trade] and the exits
    maintain: an open id is bound to a
    trade that carries this id, has a positive entry price, is in [trades]
    and is not closed; closed trades are in [trades]; every trade of
    [trades] is bound and is closed or open; [trades] and the closed
    sequence hold no reference twice, and two trades of [trades] with the
    same id are the same trade. *)
Definition ledger_inv (self : PaperTrader) : Prop :=
  (forall (id : string) (r : ref),
     open_trades self !! id = Some r ->
     exists t, objects self !! r = Some t /\ trade_id t = id /\
               0 < entry_price t /\ r ∈ trades self /\ r ∉ closed_trades self) /\
  (forall r : ref, r ∈ closed_trades self -> r ∈ trades self) /\
  (forall r : ref, r ∈ trades self ->
     is_Some (objects self !! r) /\
     (r ∈ closed_trades self \/ exists id, open_trades self !! id = Some r)) /\
  NoDup (trades self) /\
  NoDup (closed_trades self) /\
  (forall (r1 r2 : ref) (t1 t2 : Trade),
     r1 ∈ trades self -> r2 ∈ trades self ->
     objects self !! r1 = Some t1 -> objects self !! r2 = Some t2 ->
     trade_id t1 = trade_id t2 -> r1 = r2).

(** The quantities of the statistics in the words of their description,
    over the closed trades [ts]: the number of trades with [pnl > 0], the
    sum of the positive PnLs, and the absolute value of the sum of the
    negative ones. *)
Fixpoint winning_count (ts : list Trade) : nat :=
  match ts with
  | [] => 0
  | t :: ts =>
      match pnl t with
      | Some p => if Qltb 0 p then S (winning_count ts) else winning_count ts
      | None => winning_count ts
      end
  end.

Definition gross_profit (ts : list Trade) : Q :=
  py_sum (List.filter (fun p => Qltb 0 p) (omap pnl ts)).

Definition gross_loss (ts : list Trade) : Q :=
  Qabs (py_sum (List.filter (fun p => Qltb p 0) (omap pnl ts))).

(** The prices and the quantity that [enter_trade] lets in. *)
Definition valid_prices (t : Trade) : Prop :=
  0 < stop_loss t /\ stop_loss t < entry_price t /\
  entry_price t < target_price t /\ 0 < quantity t.

(** A trade that was never closed. *)
Definition open_record (t : Trade) : Prop :=
  status t = OPEN /\ exit_price t = None /\ exit_time t = None /\
  pnl t = None /\ pnl_percent t = None /\ exit_reason t = None.

(** The status [st] fits the exit price [e] of the trade. *)
Definition status_fits (t : Trade) (e : Q) (st : TradeStatus) : Prop :=
  match st with
  | OPEN => False
  | CLOSED_PROFIT => target_price t <= e
  | CLOSED_STOPPED => e <= stop_loss t
  | CLOSED_LOSS => stop_loss t < e /\ e < target_price t
  end.

(** A trade that was closed: every exit field is set, the PnL fields follow
    the formulas and the status fits the exit price. *)
Definition closed_record (t : Trade) : Prop :=
  exists e,
    exit_price t = Some e /\
    pnl t = Some ((e - entry_price t) * quantity t) /\
    pnl_percent t = Some (((e - entry_price t) / entry_price t) * 100) /\
    is_Some (exit_time t) /\ is_Some (exit_reason t) /\
    status_fits t e (status t).

(** The PnLs of the closed trades, in closure order. *)
Definition closed_pnls (self : PaperTrader) : list Q :=
  omap (fun r : ref => objects self !! r ≫= pnl) (closed_trades self).

(** The records of the ledger: open trades were never closed, closed trades
    are closed records, all have valid prices, and [total_pnl] is the sum of
    the closed PnLs. *)
Definition records_inv (self : PaperTrader) : Prop :=
  (forall (id : string) (r : ref) (t : Trade),
     open_trades self !! id = Some r -> objects self !! r = Some t ->
     open_record t /\ valid_prices t) /\
  (forall (r : ref) (t : Trade),
     r ∈ closed_trades self -> objects self !! r = Some t ->
     closed_record t /\ valid_prices t) /\
  total_pnl self = py_sum (closed_pnls self).

(** Each close, on a trade with valid prices, leaves a closed record whose
    status fits the exit price. *)
Definition closes_well (close : M Trade unit) : Prop :=
  forall t, valid_prices t ->
    exists e et st reason,
      close t = (Returns tt, closed_as t e et st reason) /\ status_fits t e st.

Definition full_inv (self : PaperTrader) : Prop :=
  ledger_inv self /\ records_inv self.

(** From [s] to [s'] the ledger only grows: [trades] and the closed sequence
    are extended at the end, and the closed trades of [s] are the same
    objects, unchanged. *)
Definition grows (s s' : PaperTrader) : Prop :=
  trades s `prefix_of` trades s' /\
  closed_trades s `prefix_of` closed_trades s' /\
  forall r : ref, r ∈ closed_trades s -> objects s' !! r = objects s !! r.

(** Every trade is open or closed, counted once. *)
Definition counted (self : PaperTrader) : Prop :=
  length (trades self) = (size (open_trades self) + length (closed_trades self))%nat.

(** The three closes of a [Trade], as one call. *)
Inductive close_op : Type :=
| ByTarget (exit_time : option datetime)
| ByStopLoss (exit_time : option datetime)
| ByPrice (exit_price : Q) (exit_time : option datetime) (reason : string).

Definition run_close (now : datetime) (op : close_op) : M Trade unit :=
  match op with
  | ByTarget et => close_at_target now et
  | ByStopLoss et => close_at_stop_loss now et
  | ByPrice p et reason => close_at_price now p et reason
  end.

End paper_trade.

(** ** main.py *)

Module main.

Record Config : Type := mk_config {
  cfg_trading_capital : Q;
  cfg_max_risk_per_trade : Q;
  cfg_max_daily_loss : Q;
  cfg_stop_loss : Q;
  cfg_target : Q;
  cfg_paper_trading : bool }.

(** [open_position] is [None] or the string ["LONG"]. *)
Inductive Position : Type := LONG.

Inductive Signal : Type := BUY.

(** A row of [trade_log]. *)
Record LogRow : Type := mk_row {
  log_Date : datetime;
  log_EntryPrice : Q;
  log_ExitPrice : Q;
  log_Reason : string;
  log_TradePnL : Q;
  log_Day : option Z }.

Record RiskManager : Type := mk_rm {
  capital : Q;
  max_risk_per_trade : Q;
  max_daily_loss : Q;
  stop_loss : Q;
  target : Q;
  paper_trading : bool;
  daily_pnl : Q;
  total_pnl : Q;
  open_position : option Position;
  entry_price : option Q;
  current_day : option Z;
  trade_log : list LogRow }.

(** The lines the script prints, one constructor per [print]. *)
Inductive Line : Type :=
| PrintEndOfDay (day : Z) (daily_pnl : Q)
| PrintNewTradingDay (day : Z)
| PrintEnterLong (date : datetime) (price risk_amount : Q)
| PrintExitLong (date : datetime) (price : Q) (reason : string) (trade_pnl : Q)
| PrintSignal (date : datetime) (signal : option Signal) (close ema vwap : Q)
| PrintTradeBlocked (date : datetime)
| PrintBacktestComplete (total_pnl : Q)
| PrintTradeLogExported.

(** The state of the script: the global [rm] and what was printed. *)
Record Script : Type := mk_script {
  rm : RiskManager;
  stdout : list Line }.

Definition print (l : Line) : M Script unit :=
  modify (fun w => mk_script (rm w) (stdout w ++ [l])).

Definition update_rm (f : RiskManager -> RiskManager) : M Script unit :=
  modify (fun w => mk_script (f (rm w)) (stdout w)).

Definition set_daily_pnl (v : Q) (r : RiskManager) : RiskManager :=
  mk_rm (capital r) (max_risk_per_trade r) (max_daily_loss r) (stop_loss r)
    (target r) (paper_trading r) v (total_pnl r) (open_position r)
    (entry_price r) (current_day r) (trade_log r).
Definition set_total_pnl (v : Q) (r : RiskManager) : RiskManager :=
  mk_rm (capital r) (max_risk_per_trade r) (max_daily_loss r) (stop_loss r)
    (target r) (paper_trading r) (daily_pnl r) v (open_position r)
    (entry_price r) (current_day r) (trade_log r).
Definition set_open_position (v : option Position) (r : RiskManager) : RiskManager :=
  mk_rm (capital r) (max_risk_per_trade r) (max_daily_loss r) (stop_loss r)
    (target r) (paper_trading r) (daily_pnl r) (total_pnl r) v
    (entry_price r) (current_day r) (trade_log r).
Definition set_entry_price (v : option Q) (r : RiskManager) : RiskManager :=
  mk_rm (capital r) (max_risk_per_trade r) (max_daily_loss r) (stop_loss r)
    (target r) (paper_trading r) (daily_pnl r) (total_pnl r) (open_position r)
    v (current_day r) (trade_log r).
Definition set_current_day (v : option Z) (r : RiskManager) : RiskManager :=
  mk_rm (capital r) (max_risk_per_trade r) (max_daily_loss r) (stop_loss r)
    (target r) (paper_trading r) (daily_pnl r) (total_pnl r) (open_position r)
    (entry_price r) v (trade_log r).
Definition set_trade_log (v : list LogRow) (r : RiskManager) : RiskManager :=
  mk_rm (capital r) (max_risk_per_trade r) (max_daily_loss r) (stop_loss r)
    (target r) (paper_trading r) (daily_pnl r) (total_pnl r) (open_position r)
    (entry_price r) (current_day r) v.

(** [RiskManager.__init__]. *)
Definition __init__ (config : Config) : RiskManager :=
  {| capital := cfg_trading_capital config;
     max_risk_per_trade := cfg_max_risk_per_trade config;
     max_daily_loss := cfg_max_daily_loss config;
     stop_loss := cfg_stop_loss config;
     target := cfg_target config;
     paper_trading := cfg_paper_trading config;
     daily_pnl := 0;
     total_pnl := 0;
     open_position := None;
     entry_price := None;
     current_day := None;
     trade_log := [] |}.

Definition reset_day (day : Z) : M Script unit :=
  w ← get;
  match current_day (rm w) with
  | Some d =>
      print (PrintEndOfDay d (daily_pnl (rm w)));;
      update_rm (fun r => set_total_pnl (total_pnl r + daily_pnl r) r)
  | None => mret tt
  end;;
  update_rm (set_daily_pnl 0);;
  update_rm (set_open_position None);;
  update_rm (set_entry_price None);;
  update_rm (set_current_day (Some day));;
  print (PrintNewTradingDay day).

Definition can_trade (self : RiskManager) : bool :=
  Qltb (- capital self * max_daily_loss self) (daily_pnl self).

Definition enter_trade (price : Q) (date : datetime) : M Script unit :=
  w ← get;
  let risk_amount := capital (rm w) * max_risk_per_trade (rm w) in
  update_rm (set_open_position (Some LONG));;
  update_rm (set_entry_price (Some price));;
  print (PrintEnterLong date price risk_amount).

(** [price - self.entry_price] raises [TypeError] when [entry_price] is
    [None]. *)
Definition exit_trade (price : Q) (date : datetime) (reason : string)
    : M Script unit :=
  w ← get;
  match open_position (rm w) with
  | Some LONG =>
      match entry_price (rm w) with
      | None => raise TypeError
      | Some entry =>
          let trade_pnl := price - entry in
          update_rm (fun r => set_daily_pnl (daily_pnl r + trade_pnl) r);;
          print (PrintExitLong date price reason trade_pnl);;
          update_rm (fun r => set_trade_log (trade_log r ++
            [ {| log_Date := date; log_EntryPrice := entry;
                 log_ExitPrice := price; log_Reason := reason;
                 log_TradePnL := trade_pnl; log_Day := current_day r |} ]) r)
      end
  | None => mret tt
  end;;
  update_rm (set_open_position None);;
  update_rm (set_entry_price None).

(** A row of the data frame as the loop reads it: [Date], [Close] and the
    columns [EMA] and [VWAP] that the script computed with pandas before
    the loop. *)
Record Row : Type := mk_sample {
  Date : datetime;
  Close : Q;
  EMA : Q;
  VWAP : Q }.

Definition signal_of (close ema vwap : Q) : option Signal :=
  if Qltb ema close && Qltb vwap close then Some BUY else None.

(** The body of the main loop for one row. *)
Definition loop_body (row : Row) : M Script unit :=
  let date := Date row in
  let day := dt_date date in
  let close := Close row in
  let ema := EMA row in
  let vwap := VWAP row in
  w ← get;
  (if bool_decide (current_day (rm w) = Some day) then mret tt else reset_day day);;
  let signal := signal_of close ema vwap in
  print (PrintSignal date signal close ema vwap);;
  w ← get;
  match open_position (rm w), signal with
  | None, Some BUY =>
      if can_trade (rm w) then enter_trade close date
      else print (PrintTradeBlocked date)
  | Some LONG, _ =>
      match entry_price (rm w) with
      | None => raise TypeError
      | Some entry =>
          if Qleb (entry * (1 + target (rm w))) close
          then exit_trade close date "TARGET HIT"
          else if Qleb close (entry * (1 - stop_loss (rm w)))
          then exit_trade close date "STOP LOSS"
          else mret tt
      end
  | None, None => mret tt
  end.

(** [for i in range(len(df)): ...] *)
Fixpoint main_loop (df : list Row) : M Script unit :=
  match df with
  | [] => mret tt
  | row :: df => loop_body row;; main_loop df
  end.

(** The state of the script when the loop starts. *)
Definition start (config : Config) : Script :=
  {| rm := __init__ config; stdout := [] |}.

(** The calls on the script's [RiskManager] object, outside the loop. *)
Inductive call : Type :=
| CallCanTrade
| CallEnterTrade (price : Q) (date : datetime)
| CallExitTrade (price : Q) (date : datetime) (reason : string)
| CallResetDay (day : Z).

Definition exec (c : call) (w : Script) : Script :=
  match c with
  | CallCanTrade => w
  | CallEnterTrade price date => snd (enter_trade price date w)
  | CallExitTrade price date reason => snd (exit_trade price date reason w)
  | CallResetDay day => snd (reset_day day w)
  end.

Definition exec_all (cs : list call) (w : Script) : Script :=
  fold_left (fun s c => exec c s) cs w.

Definition is_reset_day (c : call) : bool :=
  match c with CallResetDay _ => true | _ => false end.

(** [final_summary]; writing [trade_log.csv] is outside the model, its
    confirmation line is the trace of the export. *)
Definition final_summary : M Script unit :=
  w ← get;
  match current_day (rm w) with
  | Some d =>
      print (PrintEndOfDay d (daily_pnl (rm w)));;
      update_rm (fun r => set_total_pnl (total_pnl r + daily_pnl r) r)
  | None => mret tt
  end;;
  w ← get;
  print (PrintBacktestComplete (total_pnl (rm w)));;
  match trade_log (rm w) with
  | [] => mret tt
  | _ => print PrintTradeLogExported
  end.

(** The script from the main loop on: the loop over the data frame, then
    the final summary. *)
Definition script (df : list Row) : M Script unit :=
  main_loop df;; final_summary.

(** Vocabulary for the properties of the loop.  [at_decision row w] is the
    state at the [# Trading logic] comment: after the day check and the
    signal line.  [entries w] counts the [ENTER LONG] lines printed. *)
Definition at_decision (row : Row) (w : Script) : Script :=
  let day := dt_date (Date row) in
  let w := if bool_decide (current_day (rm w) = Some day) then w
           else snd (reset_day day w) in
  mk_script (rm w)
    (stdout w ++ [PrintSignal (Date row)
                    (signal_of (Close row) (EMA row) (VWAP row))
                    (Close row) (EMA row) (VWAP row)]).

Definition is_enter_line (l : Line) : bool :=
  match l with PrintEnterLong _ _ _ => true | _ => false end.

Definition entries (w : Script) : nat :=
  length (List.filter is_enter_line (stdout w)).

(** A held position has an entry price, and was entered with the gate open. *)
Definition position_ok (w : Script) : Prop :=
  open_position (rm w) = Some LONG ->
  is_Some (entry_price (rm w)) /\ can_trade (rm w) = true.

(** The books of the script: the PnL realised so far, carried over in
    [total_pnl] or still in [daily_pnl], is the sum of the logged trades;
    before the first day nothing is booked. *)
Definition booked (w : Script) : Prop :=
  total_pnl (rm w) + daily_pnl (rm w) == py_sum (log_TradePnL <$> trade_log (rm w)) /\
  (current_day (rm w) = None -> daily_pnl (rm w) == 0).

(** A row of the trade log was written by one of the two exits of the loop,
    under the thresholds [target] and [stop_loss]. *)
Definition exit_row (target stop_loss : Q) (row : LogRow) : Prop :=
  log_TradePnL row = log_ExitPrice row - log_EntryPrice row /\
  log_Day row = Some (dt_date (log_Date row)) /\
  ((log_Reason row = "TARGET HIT" /\
    log_EntryPrice row * (1 + target) <= log_ExitPrice row) \/
   (log_Reason row = "STOP LOSS" /\
    log_ExitPrice row <= log_EntryPrice row * (1 - stop_loss) /\
    log_ExitPrice row < log_EntryPrice row * (1 + target))).

(** The log of the script holds exit rows only, under the thresholds of the
    configuration, and the current day is the day of the last row read. *)
Definition logged (config : Config) (w : Script) : Prop :=
  target (rm w) = cfg_target config /\
  stop_loss (rm w) = cfg_stop_loss config /\
  Forall (exit_row (cfg_target config) (cfg_stop_loss config)) (trade_log (rm w)).

(** The [RiskManager] after [reset_day day]. *)
Definition rolled (day : Z) (r : RiskManager) : RiskManager :=
  set_current_day (Some day)
    (set_entry_price None
       (set_open_position None
          (set_daily_pnl 0
             match current_day r with
             | Some _ => set_total_pnl (total_pnl r + daily_pnl r) r
             | None => r
             end))).

(** The [RiskManager] after [enter_trade price], and after [exit_trade] of
    a position entered at [entry]. *)
Definition entered (price : Q) (r : RiskManager) : RiskManager :=
  set_entry_price (Some price) (set_open_position (Some LONG) r).

Definition exited (price : Q) (date : datetime) (reason : string) (entry : Q)
    (r : RiskManager) : RiskManager :=
  set_entry_price None
    (set_open_position None
       (set_trade_log
          (trade_log r ++
           [ {| log_Date := date; log_EntryPrice := entry;
                log_ExitPrice := price; log_Reason := reason;
                log_TradePnL := price - entry; log_Day := current_day r |} ])
          (set_daily_pnl (daily_pnl r + (price - entry)) r))).

(** What one iteration can do to the [RiskManager] [r] it finds at the
    trading logic, for the row [row]. *)
Inductive outcome_of (row : Row) (r : RiskManager) : RiskManager -> Prop :=
| DoesEnter :
    open_position r = None ->
    signal_of (Close row) (EMA row) (VWAP row) = Some BUY ->
    can_trade r = true ->
    outcome_of row r (entered (Close row) r)
| IsBlocked :
    open_position r = None ->
    signal_of (Close row) (EMA row) (VWAP row) = Some BUY ->
    can_trade r = false ->
    outcome_of row r r
| StaysOut :
    open_position r = None ->
    signal_of (Close row) (EMA row) (VWAP row) = None ->
    outcome_of row r r
| HitsTarget (entry : Q) :
    open_position r = Some LONG -> entry_price r = Some entry ->
    entry * (1 + target r) <= Close row ->
    outcome_of row r (exited (Close row) (Date row) "TARGET HIT" entry r)
| HitsStop (entry : Q) :
    open_position r = Some LONG -> entry_price r = Some entry ->
    Close row < entry * (1 + target r) ->
    Close row <= entry * (1 - stop_loss r) ->
    outcome_of row r (exited (Close row) (Date row) "STOP LOSS" entry r)
| Holds (entry : Q) :
    open_position r = Some LONG -> entry_price r = Some entry ->
    Close row < entry * (1 + target r) ->
    entry * (1 - stop_loss r) < Close row ->
    outcome_of row r r.

(** [blocked w] counts the [Trade blocked] lines printed. *)
Definition is_blocked_line (l : Line) : bool :=
  match l with PrintTradeBlocked _ => true | _ => false end.

Definition blocked (w : Script) : nat :=
  length (List.filter is_blocked_line (stdout w)).

End main.

(** ** backtest/backtest.py

    The script reads the same columns as main.py ([main.Row]); as there,
    the [EMA] and [VWAP] columns are those pandas computed before the
    loop. *)

Module backtest.

Definition EMA_PERIOD : Z := 20.
Definition TARGET : Q := 0.02.
Definition STOP_LOSS : Q := 0.01.

(** The lines the script prints. *)
Inductive Line : Type :=
| PrintBuy (entry_price : Q) (date : datetime)
| PrintTargetHit (close pnl : Q)
| PrintStopLoss (close pnl : Q)
| PrintTotalPnL (pnl : Q).

(** The module-level variables of the backtest and what was printed. *)
Record State : Type := mk_state {
  position : option main.Position;
  entry_price : Q;
  pnl : Q;
  stdout : list Line }.

Definition start : State :=
  {| position := None; entry_price := 0; pnl := 0; stdout := [] |}.

(** The body of the backtest loop for one row. *)
Definition loop_body (row : main.Row) (s : State) : State :=
  let close := main.Close row in
  let ema := main.EMA row in
  let vwap := main.VWAP row in
  match position s with
  | None =>
      if Qltb ema close && Qltb vwap close
      then {| position := Some main.LONG;
              entry_price := close;
              pnl := pnl s;
              stdout := stdout s ++ [PrintBuy close (main.Date row)] |}
      else s
  | Some _ =>
      if Qleb (entry_price s * (1 + TARGET)) close
      then {| position := None;
              entry_price := entry_price s;
              pnl := pnl s + (close - entry_price s);
              stdout := stdout s ++ [PrintTargetHit close (close - entry_price s)] |}
      else if Qleb close (entry_price s * (1 - STOP_LOSS))
      then {| position := None;
              entry_price := entry_price s;
              pnl := pnl s + (close - entry_price s);
              stdout := stdout s ++ [PrintStopLoss close (close - entry_price s)] |}
      else s
  end.

(** [for i in range(len(df)): ...] *)
Definition backtest_loop (df : list main.Row) (s : State) : State :=
  fold_left (fun s row => loop_body row s) df s.

(** The script from the loop on: the loop, then the total. *)
Definition script (df : list main.Row) : State :=
  let s := backtest_loop df start in
  {| position := position s; entry_price := entry_price s; pnl := pnl s;
     stdout := stdout s ++ [PrintTotalPnL (pnl s)] |}.

(** *** Vocabulary of the properties *)

(** The PnL printed on an exit line. *)
Definition exit_pnl (l : Line) : option Q :=
  match l with
  | PrintTargetHit _ pnl | PrintStopLoss _ pnl => Some pnl
  | _ => None
  end.

(** An exit line agrees in sign with its kind. *)
Definition exit_sign (l : Line) : Prop :=
  match l with
  | PrintTargetHit _ pnl => 0 < pnl
  | PrintStopLoss _ pnl => pnl < 0
  | _ => True
  end.

(** The variables of the backtest agree with the [RiskManager] of main.py:
    same position, same entry price while one is held, the backtest's [pnl]
    is the manager's [daily_pnl], and the manager's thresholds are the
    constants of the backtest. *)
Definition agrees (b : State) (r : main.RiskManager) : Prop :=
  main.open_position r = position b /\
  (is_Some (position b) -> main.entry_price r = Some (entry_price b)) /\
  main.daily_pnl r = pnl b /\
  main.target r = TARGET /\
  main.stop_loss r = STOP_LOSS.

End backtest.

(** * Properties *)

(** ** Comparisons on [Q] *)

Lemma Qleb_le x y : Qleb x y = true <-> x <= y.
Proof. apply Qle_bool_iff. Qed.

Lemma Qleb_gt x y : Qleb x y = false <-> y < x.
Proof.
  unfold Qleb. rewrite <- not_true_iff_false, Qle_bool_iff.
  split; [apply Qnot_le_lt | apply Qlt_not_le].
Qed.

Lemma Qltb_lt x y : Qltb x y = true <-> x < y.
Proof. unfold Qltb. rewrite negb_true_iff. apply Qleb_gt. Qed.

Lemma Qltb_ge x y : Qltb x y = false <-> y <= x.
Proof. unfold Qltb. rewrite negb_false_iff. apply Qle_bool_iff. Qed.

(** ** The risk gate of risk/risk_manager.py *)

Module RiskGate.
Import risk_manager.

Lemma check_date_reset_same_day now self :
  dt_date now = session_date self -> _check_date_reset now self = self.
Proof.
  intros Hd. unfold _check_date_reset. rewrite Hd, Z.eqb_refl. reflexivity.
Qed.

Lemma check_date_reset_new_day now self :
  dt_date now <> session_date self ->
  _check_date_reset now self =
    mk_rm (max_daily_loss self) 0 true (dt_date now) [].
Proof.
  intros Hd. unfold _check_date_reset.
  apply Z.eqb_neq in Hd. rewrite Hd. reflexivity.
Qed.

(** The rollover check keeps the limit, and leaves a state that is either
    the one it got or a freshly reset one. *)
Lemma check_date_reset_cases now self :
  _check_date_reset now self = self \/
  _check_date_reset now self = mk_rm (max_daily_loss self) 0 true (dt_date now) [].
Proof.
  destruct (Z.eq_dec (dt_date now) (session_date self)) as [Hd | Hd].
  - left. apply check_date_reset_same_day, Hd.
  - right. apply check_date_reset_new_day, Hd.
Qed.

(** [update_pnl] after the rollover check, as a function of the checked
    state. *)
Lemma update_pnl_unfold now stamp pnl tid self :
  update_pnl now stamp pnl tid self =
    let s := _check_date_reset now self in
    if trading_allowed s
    then if Qltb (daily_pnl s + pnl) (max_daily_loss s) then (false, s)
         else (true, mk_rm (max_daily_loss s) (daily_pnl s + pnl)
                       (negb (Qleb (daily_pnl s + pnl) (max_daily_loss s)))
                       (session_date s)
                       (trades s ++ [mk_entry stamp pnl (daily_pnl s + pnl) tid]))
    else (false, s).
Proof.
  unfold update_pnl. cbv zeta.
  destruct (trading_allowed (_check_date_reset now self)); simpl; [|reflexivity].
  destruct (Qltb _ _); [reflexivity|].
  destruct (Qleb _ _); reflexivity.
Qed.

(** C1.  On a state whose session day is the current day: with the latch
    closed [update_pnl] returns false and changes nothing, whatever the pnl;
    with the latch open it returns false and changes nothing when
    [daily_pnl + pnl < max_daily_loss], and otherwise returns true, sets
    [daily_pnl] to the sum, appends exactly one log entry, and closes the
    latch exactly when the new [daily_pnl <= max_daily_loss]. *)
Theorem update_pnl_spec (self : RiskManager) (now stamp : datetime) (pnl : Q)
    (tid : option string) :
  dt_date now = session_date self ->
  (trading_allowed self = false ->
     update_pnl now stamp pnl tid self = (false, self)) /\
  (trading_allowed self = true ->
     daily_pnl self + pnl < max_daily_loss self ->
     update_pnl now stamp pnl tid self = (false, self)) /\
  (trading_allowed self = true ->
     ~ daily_pnl self + pnl < max_daily_loss self ->
     exists self',
       update_pnl now stamp pnl tid self = (true, self') /\
       daily_pnl self' = daily_pnl self + pnl /\
       trades self' =
         trades self ++ [mk_entry stamp pnl (daily_pnl self + pnl) tid] /\
       (trading_allowed self' = false <->
          daily_pnl self + pnl <= max_daily_loss self) /\
       max_daily_loss self' = max_daily_loss self /\
       session_date self' = session_date self).
Proof.
  intros Hd. rewrite update_pnl_unfold, (check_date_reset_same_day _ _ Hd).
  cbv zeta. repeat split.
  - intros ->. reflexivity.
  - intros -> Hlt. apply Qltb_lt in Hlt. rewrite Hlt. reflexivity.
  - intros -> Hge.
    destruct (Qltb (daily_pnl self + pnl) (max_daily_loss self)) eqn:E.
    + apply Qltb_lt in E. contradiction.
    + eexists. split; [reflexivity|]. simpl. repeat split.
      * rewrite negb_false_iff. apply Qleb_le.
      * rewrite negb_false_iff. apply Qleb_le.
Qed.

Lemma update_pnl_spec_witness :
  let self := mk_rm (-1000) (-500) true 7 [] in
  let now := mk_datetime 7 36000 in
  update_pnl now now (-500) (Some "T2") self =
    (true, mk_rm (-1000) (-500 + -500) false 7
             [mk_entry now (-500) (-500 + -500) (Some "T2")]).
Proof.
  intros self now.
  destruct (update_pnl_spec self now now (-500) (Some "T2")) as (_ & _ & H).
  { reflexivity. }
  destruct H as (self' & -> & Hp & Ht & Hl & Hm & Hs).
  { reflexivity. }
  { vm_compute. intros H; discriminate H. }
  destruct self' as [m d a sd tr]. simpl in *. subst.
  destruct a; [|reflexivity].
  assert (true = false) as Habs by (apply Hl; vm_compute; intros H; discriminate H).
  discriminate Habs.
Defined.

(** The scenario of the boundary test: limit -1000; -500 accepted; -600
    rejected; -500 accepted and the latch closes; +1 rejected. *)
Example boundary_scenario :
  let now := mk_datetime 7 0 in
  let s0 := mk_rm (-1000) 0 true 7 [] in
  let '(r1, s1) := update_pnl now now (-500) None s0 in
  let '(r2, s2) := update_pnl now now (-600) None s1 in
  let '(r3, s3) := update_pnl now now (-500) None s2 in
  let '(r4, s4) := update_pnl now now 1 None s3 in
  (r1, r2, r3, r4) = (true, false, true, false) /\
  daily_pnl s1 == -500 /\ s2 = s1 /\ daily_pnl s3 == -1000 /\
  trading_allowed s3 = false /\ s4 = s3.
Proof. vm_compute. repeat split; reflexivity. Qed.

(** *** The limit is a floor of [daily_pnl] *)

Lemma above_limit_check_date_reset mdl now s :
  mdl < 0 -> above_limit mdl s -> above_limit mdl (_check_date_reset now s).
Proof.
  intros Hneg [Hm Hle].
  destruct (check_date_reset_cases now s) as [-> | ->]; [split; assumption|].
  split; [exact Hm | simpl; apply Qlt_le_weak, Hneg].
Qed.

Lemma above_limit_update_pnl mdl now stamp pnl tid s :
  mdl < 0 -> above_limit mdl s ->
  above_limit mdl (snd (update_pnl now stamp pnl tid s)).
Proof.
  intros Hneg Hs. rewrite update_pnl_unfold. cbv zeta.
  pose proof (above_limit_check_date_reset mdl now s Hneg Hs) as [Hm Hle].
  destruct (trading_allowed _); [|split; assumption].
  destruct (Qltb _ _) eqn:E; [split; assumption|].
  apply Qltb_ge in E. split; simpl; [exact Hm | rewrite <- Hm; exact E].
Qed.

Lemma above_limit_exec mdl c s :
  mdl < 0 -> above_limit mdl s -> above_limit mdl (exec c s).
Proof.
  intros Hneg Hs. destruct c; simpl.
  - apply above_limit_update_pnl; assumption.
  - apply above_limit_check_date_reset; assumption.
  - apply above_limit_check_date_reset; assumption.
  - apply above_limit_check_date_reset; assumption.
  - apply above_limit_check_date_reset; assumption.
  - unfold get_status, get_remaining_loss_budget. simpl.
    do 2 (apply above_limit_check_date_reset; [assumption|]). assumption.
  - destruct Hs as [Hm _]. split; [exact Hm | simpl; apply Qlt_le_weak, Hneg].
Qed.

Lemma above_limit_exec_all mdl cs s :
  mdl < 0 -> above_limit mdl s -> above_limit mdl (exec_all cs s).
Proof.
  intros Hneg. revert s. induction cs as [|c cs IH]; intros s Hs; [exact Hs|].
  simpl. apply IH, above_limit_exec; assumption.
Qed.

(** C10.  Constructed with a negative limit, the manager is created, and
    after any sequence of calls (updates, queries, explicit resets, at any
    clock values, so with any automatic resets) the limit is unchanged and
    [daily_pnl >= max_daily_loss]. *)
Theorem daily_pnl_never_below_limit (now : datetime) (mdl : Q) :
  mdl < 0 ->
  exists self0,
    __init__ now mdl = Returns self0 /\
    forall cs : list call,
      max_daily_loss (exec_all cs self0) = mdl /\
      max_daily_loss (exec_all cs self0) <= daily_pnl (exec_all cs self0).
Proof.
  intros Hneg. unfold __init__.
  destruct (Qleb 0 mdl) eqn:E.
  - apply Qleb_le in E. exfalso. apply (Qlt_not_le _ _ Hneg E).
  - eexists. split; [reflexivity|]. intros cs.
    assert (above_limit mdl (exec_all cs (mk_rm mdl 0 true (dt_date now) [])))
      as [Hm Hle].
    { apply above_limit_exec_all; [exact Hneg|].
      split; [reflexivity | simpl; apply Qlt_le_weak, Hneg]. }
    split; [exact Hm | rewrite Hm; exact Hle].
Qed.

Lemma daily_pnl_never_below_limit_witness :
  exists self0,
    __init__ (mk_datetime 7 0) (-1000) = Returns self0 /\
    forall cs : list call,
      max_daily_loss (exec_all cs self0) = -1000 /\
      max_daily_loss (exec_all cs self0) <= daily_pnl (exec_all cs self0).
Proof. apply (daily_pnl_never_below_limit (mk_datetime 7 0) (-1000)). reflexivity. Defined.

(** *** The latch *)

Lemma latch_check_date_reset d now s :
  session_date s = d -> dt_date now = d -> _check_date_reset now s = s.
Proof. intros <- Hd. apply check_date_reset_same_day, Hd. Qed.

Lemma latch_exec d c s :
  session_date s = d -> same_day d c -> trading_allowed s = false ->
  session_date (exec c s) = d /\ trading_allowed (exec c s) = false.
Proof.
  intros Hs Hc Hl. destruct c; simpl in Hc |- *.
  - rewrite update_pnl_unfold, (latch_check_date_reset d) by assumption.
    cbv zeta. rewrite Hl. simpl. auto.
  - rewrite (latch_check_date_reset d) by assumption. auto.
  - rewrite (latch_check_date_reset d) by assumption. auto.
  - rewrite (latch_check_date_reset d) by assumption. auto.
  - rewrite (latch_check_date_reset d) by assumption. auto.
  - destruct Hc as [Hc1 Hc2].
    unfold get_status, get_remaining_loss_budget. cbv zeta.
    rewrite (latch_check_date_reset d now) by assumption.
    rewrite (latch_check_date_reset d now') by assumption. auto.
  - contradiction.
Qed.

Lemma latch_exec_all d cs s :
  session_date s = d -> Forall (same_day d) cs -> trading_allowed s = false ->
  trading_allowed (exec_all cs s) = false.
Proof.
  revert s. induction cs as [|c cs IH]; intros s Hs Hcs Hl; [exact Hl|].
  inversion Hcs as [|? ? Hc Hcs']; subst. simpl.
  destruct (latch_exec (session_date s) c s eq_refl Hc Hl) as [Hs' Hl'].
  apply IH; assumption.
Qed.

(** Both rollovers open the latch. *)
Lemma reset_opens self : trading_allowed (reset_daily_pnl self) = true.
Proof. reflexivity. Qed.

Lemma date_change_opens now self :
  dt_date now <> session_date self ->
  trading_allowed (_check_date_reset now self) = true.
Proof. intros Hd. rewrite check_date_reset_new_day by exact Hd. reflexivity. Qed.

(** *** The log, the latch and the budget on reachable states *)

Lemma py_sum_snoc (l : list Q) (p : Q) : py_sum (l ++ [p]) = py_sum l + p.
Proof. unfold py_sum. rewrite fold_left_app. reflexivity. Qed.

Lemma py_sum_log_snoc (l : list TradeEntry) (e : TradeEntry) :
  py_sum (pnl <$> (l ++ [e])) = py_sum (pnl <$> l) + pnl e.
Proof. rewrite fmap_app. apply py_sum_snoc. Qed.

Lemma kept_fresh mdl d : mdl < 0 -> kept mdl (mk_rm mdl 0 true d []).
Proof.
  intros Hneg. split; [|split].
  - split; [reflexivity | simpl; apply Qlt_le_weak, Hneg].
  - unfold latch_on_limit. simpl. split; [discriminate|].
    intros H. rewrite <- H in Hneg. exfalso. apply (Qlt_irrefl 0), Hneg.
  - split; [reflexivity|]. intros i e H. simpl in H. rewrite lookup_nil in H.
    discriminate H.
Qed.

Lemma kept_check_date_reset mdl now s :
  mdl < 0 -> kept mdl s -> kept mdl (_check_date_reset now s).
Proof.
  intros Hneg Hs. destruct (check_date_reset_cases now s) as [-> | ->]; [exact Hs|].
  destruct Hs as [[-> _] _]. apply kept_fresh, Hneg.
Qed.

Lemma kept_update_pnl mdl now stamp p tid s :
  mdl < 0 -> kept mdl s -> kept mdl (snd (update_pnl now stamp p tid s)).
Proof.
  intros Hneg Hs. rewrite update_pnl_unfold. cbv zeta.
  pose proof (kept_check_date_reset mdl now s Hneg Hs) as Hk.
  set (s1 := _check_date_reset now s) in *. clearbody s1. clear Hs s.
  destruct (trading_allowed s1) eqn:Ha; [|exact Hk].
  destruct (Qltb (daily_pnl s1 + p) (max_daily_loss s1)) eqn:E; [exact Hk|].
  apply Qltb_ge in E. destruct Hk as ([Hm Hle] & Hl & Hsum & Hcum).
  simpl. split; [|split].
  - split; simpl; [exact Hm | rewrite <- Hm; exact E].
  - unfold latch_on_limit. simpl. rewrite negb_false_iff, Qleb_le. split.
    + intros H. apply Qle_antisym; assumption.
    + intros H. rewrite H. apply Qle_refl.
  - split; simpl.
    + rewrite py_sum_log_snoc, <- Hsum. reflexivity.
    + intros i e Hi. apply lookup_app_Some in Hi as [Hi | [Hlen Hi]].
      * rewrite take_app_le by (apply lookup_lt_Some in Hi; lia).
        apply Hcum, Hi.
      * destruct (i - length (trades s1))%nat eqn:Ei; [|discriminate Hi].
        simpl in Hi. injection Hi as <-. simpl.
        rewrite take_ge by (rewrite length_app; simpl; lia).
        rewrite py_sum_log_snoc, <- Hsum. reflexivity.
Qed.

Lemma kept_exec mdl c s : mdl < 0 -> kept mdl s -> kept mdl (exec c s).
Proof.
  intros Hneg Hs. destruct c; simpl.
  - apply kept_update_pnl; assumption.
  - apply kept_check_date_reset; assumption.
  - apply kept_check_date_reset; assumption.
  - apply kept_check_date_reset; assumption.
  - apply kept_check_date_reset; assumption.
  - unfold get_status, get_remaining_loss_budget. cbv zeta. simpl.
    do 2 (apply kept_check_date_reset; [assumption|]). assumption.
  - destruct Hs as [[<- _] _]. apply kept_fresh, Hneg.
Qed.

Lemma kept_exec_all mdl cs s : mdl < 0 -> kept mdl s -> kept mdl (exec_all cs s).
Proof.
  intros Hneg. revert s. induction cs as [|c cs IH]; intros s Hs; [exact Hs|].
  simpl. apply IH, kept_exec; assumption.
Qed.

Lemma kept_reachable now mdl self0 cs :
  __init__ now mdl = Returns self0 -> mdl < 0 /\ kept mdl (exec_all cs self0).
Proof.
  unfold __init__. destruct (Qleb 0 mdl) eqn:E; [discriminate|].
  intros H. injection H as <-. apply Qleb_gt in E. split; [exact E|].
  apply kept_exec_all; [exact E | apply kept_fresh, E].
Qed.

(** X1.  On every state reached from a constructed manager, trading is
    halted exactly when the day's PnL is equal to the limit. *)
Theorem halted_iff_on_limit (now : datetime) (mdl : Q) (self0 : RiskManager)
    (cs : list call) :
  __init__ now mdl = Returns self0 ->
  trading_allowed (exec_all cs self0) = false <->
  daily_pnl (exec_all cs self0) == max_daily_loss (exec_all cs self0).
Proof.
  intros H. destruct (kept_reachable now mdl self0 cs H) as (_ & _ & Hl & _).
  exact Hl.
Qed.

Lemma halted_iff_on_limit_witness :
  let now := mk_datetime 7 0 in
  let self0 := mk_rm (-1000) 0 true 7 [] in
  let cs := [CallUpdatePnl now now (-400) None; CallUpdatePnl now now (-600) None] in
  trading_allowed (exec_all cs self0) = false <->
  daily_pnl (exec_all cs self0) == max_daily_loss (exec_all cs self0).
Proof.
  intros now self0 cs. apply (halted_iff_on_limit now (-1000) self0 cs). reflexivity.
Defined.

(** X2.  On every state reached from a constructed manager, whatever was
    accepted, rejected or reset, [daily_pnl] is the sum of the PnLs in the
    trade log, and the [cumulative_pnl] of the entry at position [i] is the
    sum of the first [i + 1] logged PnLs. *)
Theorem log_sums_to_daily_pnl (now : datetime) (mdl : Q) (self0 : RiskManager)
    (cs : list call) :
  __init__ now mdl = Returns self0 ->
  let s := exec_all cs self0 in
  daily_pnl s = py_sum (pnl <$> trades s) /\
  forall (i : nat) (e : TradeEntry),
    trades s !! i = Some e ->
    cumulative_pnl e = py_sum (pnl <$> take (S i) (trades s)).
Proof.
  intros H. destruct (kept_reachable now mdl self0 cs H) as (_ & _ & _ & Hlog).
  exact Hlog.
Qed.

Lemma log_sums_to_daily_pnl_witness :
  let now := mk_datetime 7 0 in
  let self0 := mk_rm (-1000) 0 true 7 [] in
  let cs := [CallUpdatePnl now now (-400) None; CallUpdatePnl now now (-700) None;
             CallUpdatePnl now now 50 None] in
  daily_pnl (exec_all cs self0) = py_sum (pnl <$> trades (exec_all cs self0)).
Proof.
  intros now self0 cs.
  apply (log_sums_to_daily_pnl now (-1000) self0 cs). reflexivity.
Defined.

(** X3.  On every state reached from a constructed manager and at every
    clock reading, [get_remaining_loss_budget] returns a value [<= 0]. *)
Theorem remaining_budget_nonpositive (now now' : datetime) (mdl : Q)
    (self0 : RiskManager) (cs : list call) :
  __init__ now mdl = Returns self0 ->
  fst (get_remaining_loss_budget now' (exec_all cs self0)) <= 0.
Proof.
  intros H. destruct (kept_reachable now mdl self0 cs H) as (Hneg & Hk).
  destruct (kept_check_date_reset mdl now' _ Hneg Hk) as ([Hm Hle] & _).
  unfold get_remaining_loss_budget. simpl. rewrite Hm. lra.
Qed.

Lemma remaining_budget_nonpositive_witness :
  let now := mk_datetime 7 0 in
  fst (get_remaining_loss_budget now
         (exec_all [CallUpdatePnl now now 250 None] (mk_rm (-1000) 0 true 7 []))) <= 0.
Proof.
  intros now. apply (remaining_budget_nonpositive now now (-1000)). reflexivity.
Defined.



(** X5.  When the two clock readings of [get_status] fall on the same day,
    the status it returns describes, field by field, the manager it leaves,
    which is the manager after one rollover check. *)
Theorem get_status_describes (self : RiskManager) (now now' : datetime) :
  dt_date now = dt_date now' ->
  snd (get_status now now' self) = _check_date_reset now self /\
  describes (fst (get_status now now' self)) (snd (get_status now now' self)).
Proof.
  intros Hd. unfold get_status, get_remaining_loss_budget. cbv zeta.
  assert (_check_date_reset now' (_check_date_reset now self)
          = _check_date_reset now self) as ->.
  { apply check_date_reset_same_day. rewrite <- Hd.
    destruct (check_date_reset_cases now self) as [E | ->]; [|reflexivity].
    rewrite E. unfold _check_date_reset in E.
    destruct (dt_date now =? session_date self)%Z eqn:Eq.
    - apply Z.eqb_eq, Eq.
    - simpl in E. rewrite <- E. reflexivity. }
  simpl. split; [reflexivity|]. repeat split.
Qed.

Lemma get_status_describes_witness :
  let now := mk_datetime 8 0 in
  let self := mk_rm (-1000) (-1000) false 7 [mk_entry (mk_datetime 7 0) (-1000) (-1000) None] in
  describes (fst (get_status now now self)) (mk_rm (-1000) 0 true 8 []).
Proof.
  intros now self.
  destruct (get_status_describes self now now eq_refl) as [Hs Hd].
  rewrite Hs in Hd. exact Hd.
Defined.

(** X6.  The first [update_pnl] of a new day is judged against a fresh day:
    whatever the PnL, the latch and the log of the day before, a PnL that is
    not below the limit is accepted, becomes the day's PnL and the only log
    entry, and the session date moves to the new day. *)
Theorem first_update_of_new_day (self : RiskManager) (now stamp : datetime)
    (p : Q) (tid : option string) :
  dt_date now <> session_date self ->
  max_daily_loss self <= p ->
  exists self',
    update_pnl now stamp p tid self = (true, self') /\
    daily_pnl self' = 0 + p /\
    trades self' = [mk_entry stamp p (0 + p) tid] /\
    session_date self' = dt_date now /\
    max_daily_loss self' = max_daily_loss self.
Proof.
  intros Hd Hp. rewrite update_pnl_unfold, (check_date_reset_new_day _ _ Hd).
  cbv zeta. simpl.
  destruct (Qltb (0 + p) (max_daily_loss self)) eqn:E.
  - apply Qltb_lt in E. exfalso. lra.
  - eexists. split; [reflexivity|]. simpl. repeat split.
Qed.

Lemma first_update_of_new_day_witness :
  let self := mk_rm (-1000) (-1000) false 7 [mk_entry (mk_datetime 7 0) (-1000) (-1000) None] in
  exists self',
    update_pnl (mk_datetime 8 0) (mk_datetime 8 1) (-10) None self = (true, self') /\
    daily_pnl self' = 0 + -10.
Proof.
  intros self.
  destruct (first_update_of_new_day self (mk_datetime 8 0) (mk_datetime 8 1) (-10) None)
    as (self' & H & Hp & _).
  - vm_compute. discriminate.
  - vm_compute. discriminate.
  - exists self'. split; assumption.
Defined.

End RiskGate.

(** ** The main loop of main.py *)

Module Loop.
Import main.

(** Running a method: unfold the monad and the script's primitives. *)
Ltac run :=
  repeat first
    [ progress cbv [mbind M_bind mret M_ret get modify raise print update_rm]
    | progress simpl ].

(** Case analysis on whatever the goal branches on. *)
Ltac cases :=
  repeat match goal with
         | |- context [match ?x with _ => _ end] => destruct x eqn:?
         end.

Lemma reset_day_returns day w :
  exists w', reset_day day w = (Returns tt, w') /\
    open_position (rm w') = None /\ current_day (rm w') = Some day /\
    daily_pnl (rm w') = 0 /\
    capital (rm w') = capital (rm w) /\
    max_daily_loss (rm w') = max_daily_loss (rm w) /\
    entries w' = entries w.
Proof.
  unfold reset_day, entries. destruct w as [r out]. run.
  destruct (current_day r); run; eexists; (split; [reflexivity|]); simpl;
    repeat split; rewrite ?List.filter_app; simpl; rewrite ?app_nil_r; reflexivity.
Qed.

Lemma at_decision_facts row w :
  open_position (rm (at_decision row w)) = None \/
  (rm (at_decision row w) = rm w /\
   current_day (rm w) = Some (dt_date (Date row))).
Proof.
  unfold at_decision. cbv zeta. case_bool_decide as Hd.
  - right. split; [reflexivity | exact Hd].
  - left. destruct (reset_day_returns (dt_date (Date row)) w) as (w' & -> & Hp & _).
    exact Hp.
Qed.

Lemma entries_at_decision row w : entries (at_decision row w) = entries w.
Proof.
  unfold at_decision. cbv zeta. case_bool_decide as Hd.
  - unfold entries. simpl. rewrite List.filter_app. simpl. rewrite app_nil_r. reflexivity.
  - destruct (reset_day_returns (dt_date (Date row)) w) as (w' & -> & _ & _ & _ & _ & _ & He).
    unfold entries in *. simpl. rewrite List.filter_app. simpl. rewrite app_nil_r. exact He.
Qed.

(** The loop body is the trading logic run from the decision point. *)
Lemma loop_body_unfold row w :
  loop_body row w =
    let w1 := at_decision row w in
    match open_position (rm w1), signal_of (Close row) (EMA row) (VWAP row) with
    | None, Some BUY =>
        if can_trade (rm w1) then enter_trade (Close row) (Date row) w1
        else print (PrintTradeBlocked (Date row)) w1
    | Some LONG, _ =>
        match entry_price (rm w1) with
        | None => (Raises TypeError, w1)
        | Some entry =>
            if Qleb (entry * (1 + target (rm w1))) (Close row)
            then exit_trade (Close row) (Date row) "TARGET HIT" w1
            else if Qleb (Close row) (entry * (1 - stop_loss (rm w1)))
            then exit_trade (Close row) (Date row) "STOP LOSS" w1
            else (Returns tt, w1)
        end
    | None, None => (Returns tt, w1)
    end.
Proof.
  unfold loop_body, at_decision. cbv zeta.
  cbv [mbind M_bind get]. case_bool_decide as Hd.
  - run. cases; reflexivity.
  - destruct (reset_day_returns (dt_date (Date row)) w) as (w' & -> & _).
    run. cases; reflexivity.
Qed.

Lemma enter_trade_returns price date w :
  exists w', enter_trade price date w = (Returns tt, w') /\
    open_position (rm w') = Some LONG /\
    entry_price (rm w') = Some price /\
    can_trade (rm w') = can_trade (rm w) /\
    entries w' = S (entries w).
Proof.
  unfold enter_trade, entries, can_trade. destruct w as [r out]. run.
  eexists. split; [reflexivity|]. simpl. repeat split.
  rewrite List.filter_app, length_app. simpl. lia.
Qed.

Lemma exit_trade_returns price date reason w :
  position_ok w ->
  exists w', exit_trade price date reason w = (Returns tt, w') /\
    open_position (rm w') = None /\
    entries w' = entries w.
Proof.
  unfold position_ok, exit_trade, entries. destruct w as [r out]. simpl.
  intros Hok. cbv [mbind M_bind get]. simpl.
  destruct (open_position r) as [[]|].
  - destruct Hok as [[e He] _]; [reflexivity|]. rewrite He. run.
    eexists. split; [reflexivity|]. simpl. split; [reflexivity|].
    rewrite List.filter_app. simpl. rewrite app_nil_r. reflexivity.
  - run. eexists. split; [reflexivity|]. simpl. split; reflexivity.
Qed.

Lemma position_ok_at_decision row w :
  position_ok w -> position_ok (at_decision row w).
Proof.
  intros Hok. destruct (at_decision_facts row w) as [Hn | [Hrm _]].
  - intros Hp. rewrite Hn in Hp. discriminate Hp.
  - unfold position_ok. rewrite Hrm. exact Hok.
Qed.

(** What one iteration does, from a state where a held position has its
    entry price: it returns; it prints an [ENTER LONG] line exactly when no
    position is open at the decision point, the signal is BUY and
    [can_trade()] holds, and then a position is open at the row's close;
    with the gate closed it only prints the blocked line. *)
Lemma loop_body_step row w :
  position_ok w ->
  let w1 := at_decision row w in
  let signal := signal_of (Close row) (EMA row) (VWAP row) in
  exists w', loop_body row w = (Returns tt, w') /\ position_ok w' /\
    (entries w' = S (entries w) <->
       open_position (rm w1) = None /\ signal = Some BUY /\
       can_trade (rm w1) = true) /\
    (entries w' = S (entries w) \/ entries w' = entries w) /\
    (entries w' = S (entries w) ->
       open_position (rm w') = Some LONG /\
       entry_price (rm w') = Some (Close row)) /\
    (open_position (rm w1) = None -> signal = Some BUY ->
     can_trade (rm w1) = false ->
       w' = mk_script (rm w1) (stdout w1 ++ [PrintTradeBlocked (Date row)])) /\
    (open_position (rm w1) = None -> signal = None -> w' = w1).
Proof.
  intros Hok w1 signal. rewrite loop_body_unfold. fold w1 signal. cbv zeta.
  pose proof (position_ok_at_decision row w Hok) as Hok1. fold w1 in Hok1.
  pose proof (entries_at_decision row w) as He1. fold w1 in He1.
  rewrite <- He1. clearbody w1 signal. clear He1 Hok w.
  (* a step that prints no entry line and ends with no position, or holds *)
  assert (forall w', entries w' = entries w1 ->
            open_position (rm w1) = Some LONG -> position_ok w' ->
            position_ok w' /\
            (entries w' = S (entries w1) <->
               open_position (rm w1) = None /\ signal = Some BUY /\
               can_trade (rm w1) = true) /\
            (entries w' = S (entries w1) \/ entries w' = entries w1) /\
            (entries w' = S (entries w1) ->
               open_position (rm w') = Some LONG /\
               entry_price (rm w') = Some (Close row)) /\
            (open_position (rm w1) = None -> signal = Some BUY ->
             can_trade (rm w1) = false ->
               w' = mk_script (rm w1) (stdout w1 ++ [PrintTradeBlocked (Date row)])) /\
            (open_position (rm w1) = None -> signal = None -> w' = w1)) as Hheld.
  { intros w' He Hp Hw'. rewrite He, Hp. split; [exact Hw'|].
    split; [split; [lia | intros [H _]; discriminate H]|].
    split; [right; reflexivity|]. split; [lia|].
    split; intros H; discriminate H. }
  destruct (open_position (rm w1)) as [[]|] eqn:Hpos.
  - destruct (Hok1 Hpos) as [[e He] Hct]. rewrite He.
    assert (position_ok w1) as Hw1.
    { intros _. rewrite He. split; [eexists; reflexivity | exact Hct]. }
    destruct (Qleb (e * (1 + target (rm w1))) (Close row)).
    { destruct (exit_trade_returns (Close row) (Date row) "TARGET HIT" w1 Hw1)
        as (w' & -> & Hp' & He').
      exists w'. split; [reflexivity|]. apply Hheld; [exact He' | reflexivity |].
      intros H. rewrite Hp' in H. discriminate H. }
    destruct (Qleb (Close row) (e * (1 - stop_loss (rm w1)))).
    { destruct (exit_trade_returns (Close row) (Date row) "STOP LOSS" w1 Hw1)
        as (w' & -> & Hp' & He').
      exists w'. split; [reflexivity|]. apply Hheld; [exact He' | reflexivity |].
      intros H. rewrite Hp' in H. discriminate H. }
    exists w1. split; [reflexivity|]. apply Hheld; [reflexivity | reflexivity |].
    intros _. rewrite He. split; [eexists; reflexivity | exact Hct].
  - clear Hheld. destruct signal as [[]|].
    + destruct (can_trade (rm w1)) eqn:Hct.
      * destruct (enter_trade_returns (Close row) (Date row) w1)
          as (w' & -> & Hp' & Hen' & Hct' & He').
        exists w'. split; [reflexivity|]. split.
        { intros _. rewrite Hen', Hct', Hct. split; [eexists|]; reflexivity. }
        split; [split; [auto | intros _; exact He']|].
        split; [left; exact He'|]. split; [auto|].
        split; [intros _ _ H; discriminate H | intros _ H; discriminate H].
      * unfold print, modify. eexists. split; [reflexivity|].
        assert (entries (mk_script (rm w1) (stdout w1 ++ [PrintTradeBlocked (Date row)]))
                = entries w1) as Heq.
        { unfold entries. simpl. rewrite List.filter_app. simpl.
          rewrite app_nil_r. reflexivity. }
        rewrite Heq. split.
        { intros H. simpl in H. rewrite Hpos in H. discriminate H. }
        split; [split; [lia | intros (_ & _ & H); discriminate H]|].
        split; [right; reflexivity|]. split; [lia|].
        split; [reflexivity | intros _ H; discriminate H].
    + exists w1. split; [reflexivity|]. split.
      { intros H. rewrite Hpos in H. discriminate H. }
      split; [split; [lia | intros (_ & H & _); discriminate H]|].
      split; [right; reflexivity|]. split; [lia|].
      split; [intros _ H; discriminate H | reflexivity].
Qed.

Lemma main_loop_returns df w :
  position_ok w ->
  exists w', main_loop df w = (Returns tt, w') /\ position_ok w'.
Proof.
  revert w. induction df as [|row df IH]; intros w Hok.
  - exists w. split; [reflexivity | exact Hok].
  - destruct (loop_body_step row w Hok) as (w1 & Hb & Hok1 & _).
    destruct (IH w1 Hok1) as (w' & Hl & Hok').
    exists w'. split; [|exact Hok']. simpl.
    cbv [mbind M_bind]. rewrite Hb. exact Hl.
Qed.

Lemma main_loop_app df1 df2 w w1 :
  main_loop df1 w = (Returns tt, w1) ->
  main_loop (df1 ++ df2) w = main_loop df2 w1.
Proof.
  revert w. induction df1 as [|row df1 IH]; intros w H.
  - simpl in H. inversion H. reflexivity.
  - simpl in *. cbv [mbind M_bind] in *.
    destruct (loop_body row w) as [[[]|e] w2]; [apply IH, H | discriminate H].
Qed.

Lemma position_ok_start config : position_ok (start config).
Proof. intros H. discriminate H. Qed.

(** C9.  Along the run of the loop over any data frame, at every row: the
    run up to the row, the row's iteration and the rest of the run all
    return without raising; the iteration enters a position exactly when no
    position is open, the signal is BUY and [can_trade()] holds; with the
    gate closed the entry is skipped with the blocked line only, and the
    loop goes on with the rows that follow. *)
Theorem entry_only_when_gate_open (config : Config) (before : list Row)
    (row : Row) (after : list Row) :
  exists w w' wend,
    main_loop before (start config) = (Returns tt, w) /\
    loop_body row w = (Returns tt, w') /\
    main_loop after w' = (Returns tt, wend) /\
    main_loop (before ++ row :: after) (start config) = (Returns tt, wend) /\
    let w1 := at_decision row w in
    let signal := signal_of (Close row) (EMA row) (VWAP row) in
    (entries w' = S (entries w) <->
       open_position (rm w1) = None /\ signal = Some BUY /\
       can_trade (rm w1) = true) /\
    (entries w' = S (entries w) \/ entries w' = entries w) /\
    (entries w' = S (entries w) ->
       open_position (rm w') = Some LONG /\
       entry_price (rm w') = Some (Close row)) /\
    (open_position (rm w1) = None -> signal = Some BUY ->
     can_trade (rm w1) = false ->
       w' = mk_script (rm w1) (stdout w1 ++ [PrintTradeBlocked (Date row)])).
Proof.
  destruct (main_loop_returns before (start config) (position_ok_start config))
    as (w & Hb & Hok).
  destruct (loop_body_step row w Hok)
    as (w' & Hs & Hok' & Hiff & Hor & Hent & Hblk & _).
  destruct (main_loop_returns after w' Hok') as (wend & Ha & _).
  exists w, w', wend. split; [exact Hb|]. split; [exact Hs|]. split; [exact Ha|].
  split.
  { rewrite (main_loop_app _ _ _ _ Hb). simpl. cbv [mbind M_bind].
    rewrite Hs. exact Ha. }
  cbv zeta. split; [exact Hiff|]. split; [exact Hor|].
  split; [exact Hent | exact Hblk].
Qed.

(** *** The gate of the script within a day *)

Lemma at_decision_same_day row w :
  current_day (rm w) = Some (dt_date (Date row)) ->
  rm (at_decision row w) = rm w.
Proof.
  intros Hd. unfold at_decision. cbv zeta.
  rewrite bool_decide_eq_true_2 by exact Hd. reflexivity.
Qed.

(** With the gate closed no position is held, so an iteration on the same
    day leaves the [RiskManager] as it is. *)
Lemma gate_closed_step row w :
  position_ok w -> can_trade (rm w) = false ->
  current_day (rm w) = Some (dt_date (Date row)) ->
  exists w', loop_body row w = (Returns tt, w') /\ position_ok w' /\ rm w' = rm w.
Proof.
  intros Hok Hc Hd.
  destruct (loop_body_step row w Hok) as (w' & Hs & Hok' & _ & _ & _ & Hblk & Hnone).
  pose proof (at_decision_same_day row w Hd) as Hrm.
  rewrite Hrm in Hblk, Hnone.
  assert (open_position (rm w) = None) as Hpos.
  { destruct (open_position (rm w)) as [[]|] eqn:E; [|reflexivity].
    destruct (Hok E) as [_ Hct]. rewrite Hct in Hc. discriminate Hc. }
  exists w'. split; [exact Hs|]. split; [exact Hok'|].
  destruct (signal_of (Close row) (EMA row) (VWAP row)) as [[]|].
  - rewrite (Hblk Hpos eq_refl Hc). reflexivity.
  - rewrite (Hnone Hpos eq_refl). exact Hrm.
Qed.

Lemma gate_closed_run rows w :
  position_ok w -> can_trade (rm w) = false ->
  Forall (fun row => current_day (rm w) = Some (dt_date (Date row))) rows ->
  exists w', main_loop rows w = (Returns tt, w') /\ rm w' = rm w.
Proof.
  revert w. induction rows as [|row rows IH]; intros w Hok Hc Hd.
  - exists w. split; reflexivity.
  - inversion Hd as [|? ? Hrow Hrows]; subst.
    destruct (gate_closed_step row w Hok Hc Hrow) as (w1 & Hs & Hok1 & Hrm).
    destruct (IH w1) as (w' & Hl & Hrm'); [exact Hok1 | rewrite Hrm; exact Hc | |].
    { rewrite Hrm. exact Hrows. }
    exists w'. split; [|rewrite Hrm', Hrm; reflexivity].
    simpl. cbv [mbind M_bind]. rewrite Hs. exact Hl.
Qed.

(** In a run of the script, once [can_trade()] is false it stays false over
    the rows of the same day that follow. *)
Lemma loop_gate_stays_closed (config : Config) (before rows : list Row) :
  exists w wend,
    main_loop before (start config) = (Returns tt, w) /\
    main_loop rows w = (Returns tt, wend) /\
    (can_trade (rm w) = false ->
     Forall (fun row => current_day (rm w) = Some (dt_date (Date row))) rows ->
     can_trade (rm wend) = false).
Proof.
  destruct (main_loop_returns before (start config) (position_ok_start config))
    as (w & Hb & Hok).
  destruct (main_loop_returns rows w Hok) as (wend & Hr & _).
  exists w, wend. split; [exact Hb|]. split; [exact Hr|].
  intros Hc Hd. destruct (gate_closed_run rows w Hok Hc Hd) as (w' & Hr' & Hrm).
  rewrite Hr' in Hr. inversion Hr; subst. rewrite Hrm. exact Hc.
Qed.

(** A run in which the gate closes: a position is entered at 1000 and
    stopped out at 400, which takes the day below the limit of -100; the BUY
    signal that follows on the same day is blocked, and the one of the next
    day, after [reset_day], is taken. *)
Example blocked_then_reset :
  let cfg := mk_config 1000 (1 # 100) (1 # 10) (1 # 2) (1 # 10) true in
  let day1 t := mk_datetime 1 t in
  let df1 := [ mk_sample (day1 1%Z) 1000 900 900;
               mk_sample (day1 2%Z) 400 900 900;
               mk_sample (day1 3%Z) 500 300 300 ] in
  let df2 := [ mk_sample (mk_datetime 2 1) 500 300 300 ] in
  exists w1 w2,
    main_loop df1 (start cfg) = (Returns tt, w1) /\
    main_loop df2 w1 = (Returns tt, w2) /\
    can_trade (rm w1) = false /\ entries w1 = 1%nat /\
    last (stdout w1) = Some (PrintTradeBlocked (day1 3%Z)) /\
    can_trade (rm w2) = true /\ entries w2 = 2%nat.
Proof. vm_compute. do 2 eexists. repeat split. Qed.

(** *** The iteration, case by case *)

Lemma rm_at_decision row w :
  rm (at_decision row w) =
    if bool_decide (current_day (rm w) = Some (dt_date (Date row))) then rm w
    else rolled (dt_date (Date row)) (rm w).
Proof.
  unfold at_decision. cbv zeta. case_bool_decide as Hd; [reflexivity|].
  unfold reset_day, rolled. destruct w as [r out]. run.
  destruct (current_day r); reflexivity.
Qed.

(** An iteration from a state where a held position has its entry price
    returns, and what it did to the [RiskManager] is one of the six
    outcomes. *)
Lemma loop_body_outcome row w :
  position_ok w ->
  exists w', loop_body row w = (Returns tt, w') /\
    outcome_of row (rm (at_decision row w)) (rm w').
Proof.
  intros Hok. rewrite loop_body_unfold. cbv zeta.
  pose proof (position_ok_at_decision row w Hok) as Hok1.
  set (w1 := at_decision row w) in *. clearbody w1. clear Hok w.
  destruct w1 as [r out]. unfold position_ok in Hok1. simpl in *.
  destruct (open_position r) as [[]|] eqn:Hpos.
  - destruct (Hok1 eq_refl) as [[e He] _]. rewrite He.
    destruct (Qleb (e * (1 + target r)) (Close row)) eqn:E1.
    + apply Qleb_le in E1. unfold exit_trade. run. rewrite Hpos, He. run.
      eexists. split; [reflexivity|]. simpl.
      apply (HitsTarget row r e Hpos He E1).
    + apply Qleb_gt in E1.
      destruct (Qleb (Close row) (e * (1 - stop_loss r))) eqn:E2.
      * apply Qleb_le in E2. unfold exit_trade. run. rewrite Hpos, He. run.
        eexists. split; [reflexivity|]. simpl.
        apply (HitsStop row r e Hpos He E1 E2).
      * apply Qleb_gt in E2. eexists. split; [reflexivity|]. simpl.
        apply (Holds row r e Hpos He E1 E2).
  - destruct (signal_of (Close row) (EMA row) (VWAP row)) as [[]|] eqn:Hsig.
    + destruct (can_trade r) eqn:Hct.
      * unfold enter_trade. run. eexists. split; [reflexivity|]. simpl.
        apply (DoesEnter row r Hpos Hsig Hct).
      * run. eexists. split; [reflexivity|]. simpl.
        apply (IsBlocked row r Hpos Hsig Hct).
    + eexists. split; [reflexivity|]. simpl. apply (StaysOut row r Hpos Hsig).
Qed.

(** A property of the [RiskManager] kept by [reset_day] and by the six
    outcomes holds along the whole loop. *)
Lemma main_loop_keeps (P : RiskManager -> Prop) :
  (forall day r, P r -> P (rolled day r)) ->
  (forall row r r',
     P r -> current_day r = Some (dt_date (Date row)) ->
     outcome_of row r r' -> P r') ->
  forall df w,
    position_ok w -> P (rm w) ->
    exists w', main_loop df w = (Returns tt, w') /\ position_ok w' /\ P (rm w').
Proof.
  intros Hroll Hout. induction df as [|row df IH]; intros w Hok HP.
  - exists w. split; [reflexivity|]. split; assumption.
  - destruct (loop_body_step row w Hok) as (w1 & Hb & Hok1 & _).
    destruct (loop_body_outcome row w Hok) as (w1' & Hb' & Ho).
    rewrite Hb in Hb'. injection Hb' as <-.
    assert (P (rm w1)) as HP1.
    { rewrite rm_at_decision in Ho. case_bool_decide as Hd.
      - apply (Hout row (rm w) _ HP Hd Ho).
      - apply (Hout row _ _ (Hroll (dt_date (Date row)) _ HP)); [reflexivity | exact Ho]. }
    destruct (IH w1 Hok1 HP1) as (w' & Hl & Hok' & HP').
    exists w'. split; [|split; assumption].
    simpl. cbv [mbind M_bind]. rewrite Hb. exact Hl.
Qed.






(** X19.  Along every run of the loop, each row of the trade log is an exit
    the thresholds allowed: its PnL is exit price minus entry price, its day
    is the day of its date, and either it is a TARGET HIT with
    [exit >= entry * (1 + target)], or a STOP LOSS with
    [exit <= entry * (1 - stop_loss)] and the exit price below the target
    threshold. *)
Theorem log_rows_are_exits (config : Config) (df : list Row) :
  exists w,
    main_loop df (start config) = (Returns tt, w) /\
    Forall (exit_row (cfg_target config) (cfg_stop_loss config)) (trade_log (rm w)).
Proof.
  destruct (main_loop_keeps (fun r => logged config (mk_script r []))) with
    (df := df) (w := start config) as (w & Hl & _ & _ & _ & Hall).
  - intros day r (Ht & Hs & Hall). unfold logged, rolled.
    destruct (current_day r); simpl; auto.
  - intros row r r' (Ht & Hs & Hall) Hd Ho. unfold logged in *. simpl in *.
    destruct Ho; simpl; auto.
    + split; [exact Ht|]. split; [exact Hs|]. apply Forall_app. split; [exact Hall|].
      constructor; [|constructor]. unfold exit_row. simpl.
      split; [reflexivity|]. split; [exact Hd|]. left. split; [reflexivity|].
      rewrite <- Ht. assumption.
    + split; [exact Ht|]. split; [exact Hs|]. apply Forall_app. split; [exact Hall|].
      constructor; [|constructor]. unfold exit_row. simpl.
      split; [reflexivity|]. split; [exact Hd|]. right. split; [reflexivity|].
      rewrite <- Ht, <- Hs. split; assumption.
  - apply position_ok_start.
  - unfold logged. simpl. repeat split. constructor.
  - exists w. split; [exact Hl | exact Hall].
Qed.

(** X20.  An iteration on the first row of a new day never exits: whatever
    position was held is discarded by [reset_day] without a log row and
    without PnL, the day's PnL restarts at 0, and the [RiskManager] is left
    either reset, or reset with a position entered at this row's close. *)
Theorem day_change_drops_position (row : Row) (w : Script) :
  position_ok w ->
  current_day (rm w) <> Some (dt_date (Date row)) ->
  exists w',
    loop_body row w = (Returns tt, w') /\
    trade_log (rm w') = trade_log (rm w) /\
    daily_pnl (rm w') = 0 /\
    current_day (rm w') = Some (dt_date (Date row)) /\
    (rm w' = rolled (dt_date (Date row)) (rm w) \/
     rm w' = entered (Close row) (rolled (dt_date (Date row)) (rm w))).
Proof.
  intros Hok Hd. destruct (loop_body_outcome row w Hok) as (w' & Hb & Ho).
  exists w'. split; [exact Hb|]. rewrite rm_at_decision in Ho.
  rewrite bool_decide_eq_false_2 in Ho by exact Hd.
  set (r := rolled (dt_date (Date row)) (rm w)) in *.
  assert (open_position r = None) as Hpos by reflexivity.
  assert (trade_log r = trade_log (rm w) /\ daily_pnl r = 0 /\
          current_day r = Some (dt_date (Date row))) as (Hlog & Hdaily & Hday).
  { unfold r, rolled. destruct (current_day (rm w)); repeat split. }
  inversion Ho as [H1 H2 H3 Heq | H1 H2 H3 Heq | H1 H2 Heq
                  | e H1 | e H1 | e H1];
    try (rewrite Hpos in H1; discriminate H1).
  - split; [exact Hlog|]. split; [exact Hdaily|]. split; [exact Hday|]. right. reflexivity.
  - split; [exact Hlog|]. split; [exact Hdaily|]. split; [exact Hday|]. left. reflexivity.
  - split; [exact Hlog|]. split; [exact Hdaily|]. split; [exact Hday|]. left. reflexivity.
Qed.

Lemma day_change_drops_position_witness :
  let r := mk_rm 1000 (1 # 100) (1 # 10) (1 # 100) (2 # 100) true 5 0
             (Some LONG) (Some 100) (Some 1%Z) [] in
  let row := mk_sample (mk_datetime 2 0) 90 100 100 in
  exists w', loop_body row (mk_script r []) = (Returns tt, w') /\
    trade_log (rm w') = [] /\ daily_pnl (rm w') = 0.
Proof.
  intros r row.
  destruct (day_change_drops_position row (mk_script r [])) as (w' & H & Hl & Hd & _).
  - intros _. split; [eexists; reflexivity | reflexivity].
  - simpl. intros H. discriminate H.
  - exists w'. split; [exact H|]. split; [exact Hl | exact Hd].
Defined.

(** *** What the loop prints *)

Lemma at_decision_appends row w :
  exists lines,
    stdout (at_decision row w) = stdout w ++ lines /\
    List.filter is_blocked_line lines = [].
Proof.
  unfold at_decision, reset_day. destruct w as [r out]. cbv zeta.
  case_bool_decide as Hd.
  - eexists. split; reflexivity.
  - run. destruct (current_day r); run; rewrite <- ?app_assoc;
      eexists; split; reflexivity.
Qed.

(** An iteration only appends to what was printed. *)
Lemma loop_body_appends row w o w' :
  loop_body row w = (o, w') -> exists lines, stdout w' = stdout w ++ lines.
Proof.
  rewrite loop_body_unfold. cbv zeta.
  destruct (at_decision_appends row w) as (l1 & Hl1 & _).
  set (w1 := at_decision row w) in *. clearbody w1.
  assert (forall price date reason o w',
            exit_trade price date reason w1 = (o, w') ->
            exists lines, stdout w' = stdout w1 ++ lines) as Hexit.
  { intros price date reason o1 w2. unfold exit_trade. destruct w1 as [r1 out1].
    run. destruct (open_position r1) as [[]|]; run;
      [destruct (entry_price r1); run|];
      intros H; injection H as _ <-; simpl;
      eexists; try reflexivity; symmetry; apply app_nil_r. }
  assert (forall lines, stdout w' = stdout w1 ++ lines ->
            exists lines', stdout w' = stdout w ++ lines') as Hthen.
  { intros lines ->. rewrite Hl1, <- app_assoc. eexists. reflexivity. }
  destruct (open_position (rm w1)) as [[]|].
  - destruct (entry_price (rm w1)) as [e|].
    + destruct (Qleb _ _).
      * intros H. apply Hexit in H as [lines H]. eapply Hthen, H.
      * destruct (Qleb _ _).
        -- intros H. apply Hexit in H as [lines H]. eapply Hthen, H.
        -- intros H. injection H as _ <-. apply (Hthen []). symmetry. apply app_nil_r.
    + intros H. injection H as _ <-. apply (Hthen []). symmetry. apply app_nil_r.
  - destruct (signal_of _ _ _) as [[]|].
    + destruct (can_trade _).
      * unfold enter_trade. destruct w1 as [r1 out1]. run.
        intros H. injection H as _ <-. eapply Hthen. reflexivity.
      * unfold print, modify. intros H. injection H as _ <-. eapply Hthen. reflexivity.
    + intros H. injection H as _ <-. apply (Hthen []). symmetry. apply app_nil_r.
Qed.

Lemma blocked_monotone_step row w o w' :
  loop_body row w = (o, w') -> (blocked w <= blocked w')%nat.
Proof.
  intros H. destruct (loop_body_appends row w o w' H) as [lines Hl].
  unfold blocked. rewrite Hl, List.filter_app, length_app. lia.
Qed.

Lemma blocked_monotone df w o w' :
  main_loop df w = (o, w') -> (blocked w <= blocked w')%nat.
Proof.
  revert w. induction df as [|row df IH]; intros w H.
  - simpl in H. injection H as _ <-. lia.
  - simpl in H. cbv [mbind M_bind] in H.
    destruct (loop_body row w) as [[[]|e] w1] eqn:E.
    + apply blocked_monotone_step in E. apply IH in H. lia.
    + injection H as _ <-. apply blocked_monotone_step in E. exact E.
Qed.

Lemma blocked_at_decision row w : blocked (at_decision row w) = blocked w.
Proof.
  destruct (at_decision_appends row w) as (lines & Hl & Hnone).
  unfold blocked. rewrite Hl, List.filter_app, Hnone, app_nil_r. reflexivity.
Qed.

End Loop.

(** ** The one-way latch: risk_manager.py against main.py *)

Module Gate.

(** C2, as stated for main.py: as an object, the [RiskManager] of main.py
    has no latch.  From the state the script starts in, a losing round trip
    closes [can_trade()] and a winning one opens it again, with no
    [reset_day] in between. *)
Lemma can_trade_reopens :
  ~ (forall (w : main.Script) (cs : list main.call),
       forallb (fun c => negb (main.is_reset_day c)) cs = true ->
       main.can_trade (main.rm w) = false ->
       main.can_trade (main.rm (main.exec_all cs w)) = false).
Proof.
  intros H.
  pose (d := mk_datetime 1 0).
  pose (cfg := main.mk_config 1000 (1 # 100) (1 # 10) (5 # 100) (1 # 10) true).
  pose (w := main.exec_all
               [main.CallEnterTrade 200 d; main.CallExitTrade 100 d "STOP LOSS"]
               (main.start cfg)).
  specialize (H w [main.CallEnterTrade 100 d; main.CallExitTrade 200 d "TARGET HIT"]).
  assert (true = false) as Habs; [|discriminate Habs].
  apply H; vm_compute; reflexivity.
Qed.

(** C2, amended.  The [trading_allowed] latch of risk_manager.py, once
    false, stays false under every sequence of [update_pnl] and query calls
    made on the session day, and both rollovers open it; the [can_trade()]
    comparison of main.py stays false over the rows of the same day along
    every run of the main loop. *)
Theorem latch_one_way :
  (forall (self : risk_manager.RiskManager) (cs : list risk_manager.call),
     Forall (risk_manager.same_day (risk_manager.session_date self)) cs ->
     risk_manager.trading_allowed self = false ->
     risk_manager.trading_allowed (risk_manager.exec_all cs self) = false) /\
  (forall self : risk_manager.RiskManager,
     risk_manager.trading_allowed (risk_manager.reset_daily_pnl self) = true) /\
  (forall (now : datetime) (self : risk_manager.RiskManager),
     dt_date now <> risk_manager.session_date self ->
     risk_manager.trading_allowed (risk_manager._check_date_reset now self) = true) /\
  (forall (config : main.Config) (before rows : list main.Row),
     exists w wend,
       main.main_loop before (main.start config) = (Returns tt, w) /\
       main.main_loop rows w = (Returns tt, wend) /\
       (main.can_trade (main.rm w) = false ->
        Forall (fun row =>
                  main.current_day (main.rm w) = Some (dt_date (main.Date row))) rows ->
        main.can_trade (main.rm wend) = false)).
Proof.
  split; [|split; [|split]].
  - intros self cs Hcs Hl. apply (RiskGate.latch_exec_all (risk_manager.session_date self));
      [reflexivity | exact Hcs | exact Hl].
  - apply RiskGate.reset_opens.
  - apply RiskGate.date_change_opens.
  - apply Loop.loop_gate_stays_closed.
Qed.

End Gate.

(** ** Trades and the ledger of execution/paper_trade.py *)

Module Ledger.
Import paper_trade.

Ltac run :=
  repeat first
    [ progress cbv [mbind M_bind mret M_ret get modify raise]
    | progress simpl ].

Lemma Qeq_bool_nonzero (x : Q) : 0 < x -> Qeq_bool x 0 = false.
Proof.
  intros Hx. apply not_true_iff_false. intros H. apply Qeq_bool_iff in H.
  rewrite H in Hx. apply (Qlt_irrefl 0), Hx.
Qed.

(** *** The transitions of a [Trade] *)

Lemma close_at_target_returns now et t :
  0 < entry_price t ->
  close_at_target now et t =
    (Returns tt, closed_as t (target_price t) (or_now et now) CLOSED_PROFIT "TARGET_HIT").
Proof.
  intros Hen. unfold close_at_target, _calculate_pnl. run.
  rewrite (Qeq_bool_nonzero _ Hen). reflexivity.
Qed.

Lemma close_at_stop_loss_returns now et t :
  0 < entry_price t ->
  close_at_stop_loss now et t =
    (Returns tt, closed_as t (stop_loss t) (or_now et now) CLOSED_STOPPED "STOP_LOSS_HIT").
Proof.
  intros Hen. unfold close_at_stop_loss, _calculate_pnl. run.
  rewrite (Qeq_bool_nonzero _ Hen). reflexivity.
Qed.

Lemma close_at_price_returns now p et reason t :
  0 < entry_price t ->
  close_at_price now p et reason t =
    (Returns tt, closed_as t p (or_now et now) (status_at_price t p) reason).
Proof.
  intros Hen. unfold close_at_price, _calculate_pnl, status_at_price. run.
  rewrite (Qeq_bool_nonzero _ Hen). run.
  destruct (Qleb (target_price t) p); [reflexivity|].
  destruct (Qleb p (stop_loss t)); reflexivity.
Qed.

(** C4.  For an open trade with [0 < entry], [stop < entry < target], and any
    price [p], [close_at_price] returns with the exit price [p] and the
    status CLOSED_PROFIT when [p >= target], CLOSED_STOPPED when
    [p <= stop], CLOSED_LOSS otherwise; between stop and target and above the
    entry price the status is CLOSED_LOSS although the PnL is positive. *)
Theorem close_at_price_status (t : Trade) (now : datetime) (p : Q)
    (et : option datetime) (reason : string) :
  status t = OPEN ->
  0 < entry_price t ->
  stop_loss t < entry_price t ->
  entry_price t < target_price t ->
  exists t',
    close_at_price now p et reason t = (Returns tt, t') /\
    exit_price t' = Some p /\
    exit_reason t' = Some reason /\
    (target_price t <= p -> status t' = CLOSED_PROFIT) /\
    (p <= stop_loss t -> status t' = CLOSED_STOPPED) /\
    (~ target_price t <= p -> ~ p <= stop_loss t -> status t' = CLOSED_LOSS) /\
    (stop_loss t < p -> p < target_price t -> entry_price t < p ->
     0 < quantity t ->
     status t' = CLOSED_LOSS /\ exists v, pnl t' = Some v /\ 0 < v).
Proof.
  intros _ Hen Hs Ht. rewrite (close_at_price_returns _ _ _ _ _ Hen).
  eexists. split; [reflexivity|]. simpl. unfold status_at_price.
  split; [reflexivity|]. split; [reflexivity|].
  destruct (Qleb (target_price t) p) eqn:E1;
    [apply Qleb_le in E1 | apply Qleb_gt in E1];
    (destruct (Qleb p (stop_loss t)) eqn:E2;
       [apply Qleb_le in E2 | apply Qleb_gt in E2]).
  - (* p >= target and p <= stop: excluded by stop < entry < target *)
    exfalso. apply (Qlt_irrefl p).
    apply Qle_lt_trans with (stop_loss t); [exact E2|].
    apply Qlt_le_trans with (target_price t); [|exact E1].
    apply Qlt_trans with (entry_price t); assumption.
  - repeat split; try reflexivity.
    + intros H. exfalso. apply (Qlt_not_le _ _ E2 H).
    + intros H. contradiction.
    + exfalso. apply (Qlt_not_le _ _ H0 E1).
    + exfalso. apply (Qlt_not_le _ _ H0 E1).
  - repeat split; try reflexivity.
    + intros H. exfalso. apply (Qlt_not_le _ _ E1 H).
    + intros _ H. contradiction.
    + exfalso. apply (Qlt_not_le _ _ H E2).
    + exfalso. apply (Qlt_not_le _ _ H E2).
  - repeat split; try reflexivity.
    + intros H. exfalso. apply (Qlt_not_le _ _ E1 H).
    + intros H. exfalso. apply (Qlt_not_le _ _ E2 H).
    + eexists. split; [reflexivity|].
      apply Qmult_lt_0_compat; [|assumption].
      unfold Qminus. rewrite <- Qlt_minus_iff. assumption.
Qed.

Lemma close_at_price_status_witness :
  let t := Trade__init__ (mk_datetime 1 0) "T1" 100 95 110 1 None in
  exists t',
    close_at_price (mk_datetime 1 5) 102 None "MANUAL_EXIT" t = (Returns tt, t') /\
    exit_price t' = Some 102 /\
    status t' = CLOSED_LOSS /\
    exists v, pnl t' = Some v /\ 0 < v.
Proof.
  intros t.
  destruct (close_at_price_status t (mk_datetime 1 5) 102 None "MANUAL_EXIT")
    as (t' & Hc & Hp & _ & _ & _ & _ & Hq);
    [reflexivity | reflexivity | reflexivity | reflexivity |].
  exists t'. split; [exact Hc|]. split; [exact Hp|].
  apply Hq; reflexivity.
Defined.

(** C5.  With [entry > 0], each of the three closes returns, leaves the
    entry price and the quantity as they were, sets the exit price (target,
    stop, or the given price), and sets [pnl = (exit - entry) * quantity]
    and [pnl_percent = (exit - entry) / entry * 100]. *)
Theorem closed_pnl_formulas (t : Trade) (now : datetime) (et : option datetime)
    (p : Q) (reason : string) :
  0 < entry_price t ->
  (exists t', close_at_target now et t = (Returns tt, t') /\
     entry_price t' = entry_price t /\ quantity t' = quantity t /\
     exit_price t' = Some (target_price t) /\ pnl_correct t') /\
  (exists t', close_at_stop_loss now et t = (Returns tt, t') /\
     entry_price t' = entry_price t /\ quantity t' = quantity t /\
     exit_price t' = Some (stop_loss t) /\ pnl_correct t') /\
  (exists t', close_at_price now p et reason t = (Returns tt, t') /\
     entry_price t' = entry_price t /\ quantity t' = quantity t /\
     exit_price t' = Some p /\ pnl_correct t').
Proof.
  intros Hen.
  rewrite (close_at_target_returns _ _ _ Hen),
          (close_at_stop_loss_returns _ _ _ Hen),
          (close_at_price_returns _ _ _ _ _ Hen).
  repeat split; eexists; (split; [reflexivity|]); simpl;
    repeat split; eexists; simpl; repeat split.
Qed.

Lemma closed_pnl_formulas_witness :
  let t := Trade__init__ (mk_datetime 1 0) "T1" 100 95 110 10 None in
  exists t', close_at_target (mk_datetime 1 5) None t = (Returns tt, t') /\
    pnl t' = Some ((110 - 100) * 10) /\
    pnl_percent t' = Some (((110 - 100) / 100) * 100).
Proof.
  intros t.
  destruct (closed_pnl_formulas t (mk_datetime 1 5) None 0 "")
    as ((t' & Hc & Hen & Hq & He & (e & He' & Hp & Hpp)) & _); [reflexivity|].
  exists t'. split; [exact Hc|].
  rewrite He in He'. injection He' as <-.
  rewrite Hen, Hq in Hp. rewrite Hen in Hpp. split; [exact Hp | exact Hpp].
Defined.

(** *** The ledger *)

Lemma mapM_lookup (objs : list Trade) (rs : list ref) :
  Forall (fun r : ref => is_Some (objs !! r)) rs ->
  exists ts : list Trade,
    mapM (fun r : ref => objs !! r) rs = Some ts /\
    Forall2 (fun (r : ref) t => objs !! r = Some t) rs ts /\
    omap (fun r : ref => trade_id <$> objs !! r) rs = trade_id <$> ts.
Proof.
  induction 1 as [|r rs [t Ht] _ (ts & Hm & Hf & Ho)].
  - exists []. repeat split. constructor.
  - exists (t :: ts). split; [|split].
    + change (mapM (fun r : ref => objs !! r) (r :: rs))
        with (objs !! r ≫= fun y => mapM (fun r : ref => objs !! r) rs ≫= fun k => mret (y :: k)).
      rewrite Ht. simpl. rewrite Hm. reflexivity.
    + constructor; assumption.
    + cbn [omap list_omap]. rewrite Ht. cbn [fmap option_fmap option_map list_fmap].
      f_equal. exact Ho.
Qed.

Lemma deref_all_closed self :
  closed_bound self ->
  exists ts : list Trade,
    deref_all (closed_trades self) self = (Returns ts, self) /\
    Forall2 (fun (r : ref) t => objects self !! r = Some t) (closed_trades self) ts /\
    ids_at self (closed_trades self) = trade_id <$> ts.
Proof.
  intros Hb. destruct (mapM_lookup _ _ Hb) as (ts & Hm & Hf & Ho).
  exists ts. unfold deref_all. rewrite Hm. repeat split; assumption.
Qed.

Lemma id_among (id : string) (ts : list Trade) :
  existsb (fun t => String.eqb (trade_id t) id) ts = true <->
  id ∈ trade_id <$> ts.
Proof.
  rewrite existsb_exists, list_elem_of_fmap. split.
  - intros (t & Hin & He). apply String.eqb_eq in He.
    exists t. split; [symmetry; exact He | apply list_elem_of_In, Hin].
  - intros (t & He & Hin). exists t. split; [apply list_elem_of_In, Hin|].
    apply String.eqb_eq. symmetry. exact He.
Qed.

(** The two ways [enter_trade] ends: rejected with the ledger as it was,
    or the new ledger. *)
Lemma enter_trade_cases (self : PaperTrader) (now : datetime) (id : string)
    (e s t q : Q) (et : option datetime) :
  closed_bound self ->
  (rejects self id e s t q ->
     exists msg, enter_trade now id e s t q et self = (Raises (ValueError msg), self)) /\
  (~ rejects self id e s t q ->
     let r := length (objects self) in
     let tr := Trade__init__ now id e s t q et in
     enter_trade now id e s t q et self =
       (Returns r,
        mk_pt (objects self ++ [tr]) (trades self ++ [r])
              (<[id := r]> (open_trades self)) (closed_trades self)
              (total_pnl self)) /\
     status tr = OPEN /\ trade_id tr = id).
Proof.
  intros Hb. destruct (deref_all_closed self Hb) as (ts & Hd & _ & Hids).
  unfold rejects. rewrite Hids, <- id_among.
  unfold enter_trade. cbv [mbind M_bind get]. rewrite Hd.
  destruct (bool_decide (is_Some (open_trades self !! id))) eqn:Eo.
  { apply bool_decide_eq_true in Eo. split; [|intros H; exfalso; apply H; auto].
    intros _. eexists. reflexivity. }
  apply bool_decide_eq_false in Eo.
  destruct (existsb _ ts) eqn:Ec.
  { split; [|intros H; exfalso; apply H; auto]. intros _. eexists. reflexivity. }
  cbv [orb].
  destruct (Qleb e 0) eqn:E1;
    [apply Qleb_le in E1;
     split; [intros _; eexists; reflexivity | intros H; exfalso; apply H; tauto]|].
  destruct (Qleb s 0) eqn:E2;
    [apply Qleb_le in E2;
     split; [intros _; eexists; reflexivity | intros H; exfalso; apply H; tauto]|].
  destruct (Qleb t 0) eqn:E3;
    [apply Qleb_le in E3;
     split; [intros _; eexists; reflexivity | intros H; exfalso; apply H; tauto]|].
  destruct (Qleb q 0) eqn:E4;
    [apply Qleb_le in E4;
     split; [intros _; eexists; reflexivity | intros H; exfalso; apply H; tauto]|].
  destruct (Qleb e s) eqn:E5;
    [apply Qleb_le in E5;
     split; [intros _; eexists; reflexivity | intros H; exfalso; apply H; tauto]|].
  destruct (Qleb t e) eqn:E6;
    [apply Qleb_le in E6;
     split; [intros _; eexists; reflexivity | intros H; exfalso; apply H; tauto]|].
  apply Qleb_gt in E1, E2, E3, E4, E5, E6.
  split.
  - intros [H | [H | [H | [H | [H | [H | [H | H]]]]]]]; exfalso;
      try (apply (Qlt_not_le _ _ E1 H)); try (apply (Qlt_not_le _ _ E2 H));
      try (apply (Qlt_not_le _ _ E3 H)); try (apply (Qlt_not_le _ _ E4 H));
      try (apply (Qlt_not_le _ _ E5 H)); try (apply (Qlt_not_le _ _ E6 H)).
    + exact (Eo H).
    + discriminate H.
  - intros _. repeat split.
Qed.


(** *** Exits *)

Lemma exit_trade_at_target_via now id et :
  exit_trade_at_target now id et = exit_via (close_at_target now et) id.
Proof. reflexivity. Qed.

Lemma exit_trade_at_stop_loss_via now id et :
  exit_trade_at_stop_loss now id et = exit_via (close_at_stop_loss now et) id.
Proof. reflexivity. Qed.

Lemma exit_trade_at_price_via now id p et reason :
  exit_trade_at_price now id p et reason =
    exit_via (close_at_price now p et reason) id.
Proof. reflexivity. Qed.

Lemma exit_via_absent close id self :
  open_trades self !! id = None -> exit_via close id self = (Returns false, self).
Proof. intros H. unfold exit_via. cbv [mbind M_bind get]. rewrite H. reflexivity. Qed.

Lemma exit_via_present close id self r t t' v :
  open_trades self !! id = Some r ->
  objects self !! r = Some t ->
  close t = (Returns tt, t') ->
  pnl t' = Some v ->
  exit_via close id self = (Returns true, moved_to_closed self id r t' v).
Proof.
  intros Ho Hr Hc Hv. unfold exit_via, _move_to_closed, on_object, deref.
  cbv [mbind M_bind get]. rewrite Ho, Hr, Hc. run. rewrite Ho. run.
  rewrite list_lookup_insert_eq by (eapply lookup_lt_Some; exact Hr).
  rewrite Hv. reflexivity.
Qed.

(** C6.  Each of the three exits returns false and leaves the ledger as it
    was when the id is not in the open mapping.  When it is, bound to a
    trade with a positive entry price, the exit returns true: the trade is
    closed by the matching [Trade] transition, its id leaves the open
    mapping, it is appended to the closed sequence, and its PnL is added to
    [total_pnl]. *)
Theorem exit_trade_spec (self : PaperTrader) (now : datetime) (id : string)
    (et : option datetime) (p : Q) (reason : string) :
  (open_trades self !! id = None ->
     exit_trade_at_target now id et self = (Returns false, self) /\
     exit_trade_at_stop_loss now id et self = (Returns false, self) /\
     exit_trade_at_price now id p et reason self = (Returns false, self)) /\
  (forall (r : ref) (t : Trade),
     open_trades self !! id = Some r ->
     objects self !! r = Some t ->
     0 < entry_price t ->
     (exists t' v,
        close_at_target now et t = (Returns tt, t') /\ pnl t' = Some v /\
        exit_trade_at_target now id et self =
          (Returns true, moved_to_closed self id r t' v)) /\
     (exists t' v,
        close_at_stop_loss now et t = (Returns tt, t') /\ pnl t' = Some v /\
        exit_trade_at_stop_loss now id et self =
          (Returns true, moved_to_closed self id r t' v)) /\
     (exists t' v,
        close_at_price now p et reason t = (Returns tt, t') /\ pnl t' = Some v /\
        exit_trade_at_price now id p et reason self =
          (Returns true, moved_to_closed self id r t' v))).
Proof.
  rewrite exit_trade_at_target_via, exit_trade_at_stop_loss_via,
    exit_trade_at_price_via.
  split.
  - intros H. repeat split; apply exit_via_absent, H.
  - intros r t Ho Hr Hen. repeat split.
    + do 2 eexists. split; [apply close_at_target_returns, Hen|].
      split; [reflexivity|].
      eapply exit_via_present; eauto using close_at_target_returns.
    + do 2 eexists. split; [apply close_at_stop_loss_returns, Hen|].
      split; [reflexivity|].
      eapply exit_via_present; eauto using close_at_stop_loss_returns.
    + do 2 eexists. split; [apply close_at_price_returns, Hen|].
      split; [reflexivity|].
      eapply exit_via_present; eauto using close_at_price_returns.
Qed.

Lemma exit_trade_spec_witness :
  let now := mk_datetime 1 0 in
  let st1 := snd (enter_trade now "T1" 100 95 110 10 None PaperTrader__init__) in
  exists t',
    close_at_target now None (Trade__init__ now "T1" 100 95 110 10 None)
      = (Returns tt, t') /\
    exit_trade_at_target now "T1" None st1 =
      (Returns true, moved_to_closed st1 "T1" 0%nat t' ((110 - 100) * 10)) /\
    exit_trade_at_target now "T9" None st1 = (Returns false, st1).
Proof.
  intros now st1.
  destruct (exit_trade_spec st1 now "T1" None 0 "") as [_ H].
  destruct (H 0%nat (Trade__init__ now "T1" 100 95 110 10 None))
    as ((t' & v & Hc & Hv & He) & _); [reflexivity | reflexivity | reflexivity |].
  exists t'. split; [exact Hc|]. split.
  - rewrite He. rewrite close_at_target_returns in Hc by reflexivity.
    injection Hc as <-. simpl in Hv. injection Hv as <-. reflexivity.
  - apply (exit_trade_spec st1 now "T9" None 0 ""). reflexivity.
Defined.

(** *** The invariant of the ledger *)

Lemma ledger_inv_init : ledger_inv PaperTrader__init__.
Proof.
  unfold ledger_inv, PaperTrader__init__. simpl. repeat split.
  - intros id r H. rewrite lookup_empty in H. discriminate H.
  - intros r H. inversion H.
  - inversion H.
  - inversion H.
  - constructor.
  - constructor.
  - intros r1 r2 t1 t2 H. inversion H.
Qed.

Lemma ledger_inv_closed_bound self : ledger_inv self -> closed_bound self.
Proof.
  intros (_ & Hc & Ht & _). apply Forall_forall. intros r Hr.
  apply Ht, Hc, Hr.
Qed.

Lemma ids_at_elem self (rs : list ref) (id : string) :
  id ∈ ids_at self rs <->
  exists r t, r ∈ rs /\ objects self !! r = Some t /\ trade_id t = id.
Proof.
  unfold ids_at. rewrite list_elem_of_omap. split.
  - intros (r & Hr & Hf). destruct (objects self !! r) as [t|] eqn:E; [|discriminate Hf].
    simpl in Hf. injection Hf as <-. exists r, t. auto.
  - intros (r & t & Hr & Ho & Hid). exists r. split; [exact Hr|].
    rewrite Ho. simpl. rewrite Hid. reflexivity.
Qed.

Lemma rejects_dec self id e s t q :
  rejects self id e s t q \/ ~ rejects self id e s t q.
Proof.
  unfold rejects.
  destruct (decide (is_Some (open_trades self !! id))); [tauto|].
  destruct (decide (id ∈ ids_at self (closed_trades self))); [tauto|].
  destruct (Qlt_le_dec 0 e) as [He|]; [|tauto].
  destruct (Qlt_le_dec 0 s) as [Hs|]; [|tauto].
  destruct (Qlt_le_dec 0 t) as [Ht|]; [|tauto].
  destruct (Qlt_le_dec 0 q) as [Hq|]; [|tauto].
  destruct (Qlt_le_dec s e) as [Hse|]; [|tauto].
  destruct (Qlt_le_dec e t) as [Het|]; [|tauto].
  right. intros [H | [H | [H | [H | [H | [H | [H | H]]]]]]]; try contradiction.
  - apply (Qlt_not_le _ _ He H).
  - apply (Qlt_not_le _ _ Hs H).
  - apply (Qlt_not_le _ _ Ht H).
  - apply (Qlt_not_le _ _ Hq H).
  - apply (Qlt_not_le _ _ Hse H).
  - apply (Qlt_not_le _ _ Het H).
Qed.

Lemma ledger_inv_entered self now id e s t q et :
  ledger_inv self -> ~ rejects self id e s t q ->
  ledger_inv
    (mk_pt (objects self ++ [Trade__init__ now id e s t q et])
           (trades self ++ [length (objects self)])
           (<[id := length (objects self)]> (open_trades self))
           (closed_trades self) (total_pnl self)).
Proof.
  intros (I1 & I2 & I3 & I4 & I5 & I6) Hrej.
  set (r0 := length (objects self)). set (tr := Trade__init__ now id e s t q et).
  assert (forall r : ref, r ∈ trades self -> (r < r0)%nat) as Hlt.
  { intros r Hr. apply lookup_lt_is_Some, I3, Hr. }
  assert ((objects self ++ [tr]) !! r0 = Some tr) as Hnew.
  { apply list_lookup_middle. reflexivity. }
  assert (forall r : ref, r ∈ trades self ->
            (objects self ++ [tr]) !! r = objects self !! r) as Hold.
  { intros r Hr. apply lookup_app_l, Hlt, Hr. }
  assert (open_trades self !! id = None) as Hnone.
  { destruct (open_trades self !! id) as [r|] eqn:E; [|reflexivity].
    exfalso. apply Hrej. left. exists r. exact E. }
  assert (forall (r : ref) (t0 : Trade), r ∈ trades self ->
            objects self !! r = Some t0 -> trade_id t0 <> id) as Hfresh.
  { intros r t0 Hr Ho Hid. destruct (I3 r Hr) as [_ [Hc | [id' Hop]]].
    - apply Hrej. right. left. apply ids_at_elem. exists r, t0. auto.
    - destruct (I1 id' r Hop) as (t1 & Ho1 & Hid1 & _).
      rewrite Ho in Ho1. injection Ho1 as <-. rewrite Hid in Hid1. subst id'.
      rewrite Hnone in Hop. discriminate Hop. }
  assert (0 < e) as He.
  { apply Qnot_le_lt. intros H. apply Hrej. unfold rejects. tauto. }
  unfold ledger_inv. simpl. fold r0 tr. repeat split.
  - intros id' r Hl. destruct (decide (id = id')) as [<- | Hne].
    + rewrite lookup_insert_eq in Hl. injection Hl as <-.
      exists tr. split; [exact Hnew|]. split; [reflexivity|]. split; [exact He|].
      split; [apply elem_of_app; right; apply list_elem_of_singleton; reflexivity|].
      intros Hc. apply I2, Hlt in Hc. lia.
    + rewrite lookup_insert_ne in Hl by exact Hne.
      destruct (I1 id' r Hl) as (t1 & Ho & Hid & Hen & Ht & Hnc).
      exists t1. split; [rewrite Hold by exact Ht; exact Ho|].
      split; [exact Hid|]. split; [exact Hen|].
      split; [apply elem_of_app; left; exact Ht | exact Hnc].
  - intros r Hc. apply elem_of_app. left. apply I2, Hc.
  - apply elem_of_app in H as [Hr | Hr].
    + rewrite Hold by exact Hr. apply I3, Hr.
    + apply list_elem_of_singleton in Hr. exists tr. rewrite Hr. exact Hnew.
  - apply elem_of_app in H as [Hr | Hr].
    + destruct (I3 r Hr) as [_ [Hc | [id' Hop]]]; [left; exact Hc|].
      right. exists id'. rewrite lookup_insert_ne; [exact Hop|].
      intros <-. rewrite Hnone in Hop. discriminate Hop.
    + apply list_elem_of_singleton in Hr. rewrite Hr. right. exists id.
      apply lookup_insert_eq.
  - apply NoDup_app. split; [exact I4|]. split; [|apply NoDup_singleton].
    intros r Hr Hr0. apply list_elem_of_singleton in Hr0. apply Hlt in Hr. lia.
  - exact I5.
  - intros r1 r2 t1 t2 H1 H2 Ho1 Ho2 Hid.
    apply elem_of_app in H1 as [H1 | H1]; apply elem_of_app in H2 as [H2 | H2].
    + rewrite Hold in Ho1, Ho2 by assumption. eapply I6; eassumption.
    + apply list_elem_of_singleton in H2.
      assert (Some t2 = Some tr) as Heq by (rewrite <- Ho2, H2; exact Hnew).
      rewrite Hold in Ho1 by assumption. injection Heq as ->.
      exfalso. apply (Hfresh r1 t1 H1 Ho1). exact Hid.
    + apply list_elem_of_singleton in H1.
      assert (Some t1 = Some tr) as Heq by (rewrite <- Ho1, H1; exact Hnew).
      rewrite Hold in Ho2 by assumption. injection Heq as ->.
      exfalso. apply (Hfresh r2 t2 H2 Ho2). symmetry. exact Hid.
    + apply list_elem_of_singleton in H1, H2. congruence.
Qed.

Lemma ledger_inv_enter_trade self now id e s t q et :
  ledger_inv self -> ledger_inv (snd (enter_trade now id e s t q et self)).
Proof.
  intros Hinv.
  destruct (enter_trade_cases self now id e s t q et (ledger_inv_closed_bound _ Hinv))
    as [Hr Ha].
  destruct (rejects_dec self id e s t q) as [H | H].
  - destruct (Hr H) as [msg ->]. exact Hinv.
  - destruct (Ha H) as (-> & _). simpl. apply ledger_inv_entered; assumption.
Qed.

Lemma ledger_inv_moved self id r t t' v :
  ledger_inv self ->
  open_trades self !! id = Some r ->
  objects self !! r = Some t ->
  trade_id t' = trade_id t ->
  entry_price t' = entry_price t ->
  ledger_inv (moved_to_closed self id r t' v).
Proof.
  intros (I1 & I2 & I3 & I4 & I5 & I6) Hop Hr Hid Hen.
  destruct (I1 id r Hop) as (t0 & Ho0 & Hid0 & Hen0 & Hrt & Hrc).
  rewrite Hr in Ho0. injection Ho0 as <-.
  assert (r < length (objects self))%nat as Hrlt.
  { eapply lookup_lt_Some. exact Hr. }
  assert (forall (r' : ref) (t1 : Trade),
            <[r := t']> (objects self) !! r' = Some t1 ->
            exists t2, objects self !! r' = Some t2 /\
                       trade_id t2 = trade_id t1 /\
                       entry_price t2 = entry_price t1) as Hlook.
  { intros r' t1 Hl. destruct (decide (r = r')) as [<- | Hne].
    - rewrite list_lookup_insert_eq in Hl by exact Hrlt. injection Hl as <-.
      exists t. auto.
    - rewrite list_lookup_insert_ne in Hl by exact Hne. exists t1. auto. }
  assert (forall r' : ref, is_Some (objects self !! r') ->
            is_Some (<[r := t']> (objects self) !! r')) as Hsome.
  { intros r' H. apply lookup_lt_is_Some. rewrite length_insert.
    apply lookup_lt_is_Some, H. }
  unfold ledger_inv, moved_to_closed. simpl. repeat split.
  - intros id' r' Hl. apply lookup_delete_Some in Hl as [Hne Hl].
    destruct (I1 id' r' Hl) as (t1 & Ho1 & Hid1 & Hen1 & Ht1 & Hc1).
    assert (r <> r') as Hrr.
    { intros <-. rewrite Hr in Ho1. injection Ho1 as <-. congruence. }
    exists t1. split; [rewrite list_lookup_insert_ne by exact Hrr; exact Ho1|].
    split; [exact Hid1|]. split; [exact Hen1|]. split; [exact Ht1|].
    intros Hin. apply elem_of_app in Hin as [Hin | Hin]; [exact (Hc1 Hin)|].
    apply list_elem_of_singleton in Hin. congruence.
  - intros r' Hin. apply elem_of_app in Hin as [Hin | Hin]; [apply I2, Hin|].
    apply list_elem_of_singleton in Hin. subst r'. exact Hrt.
  - apply Hsome, I3, H.
  - destruct (I3 r0 H) as [_ [Hc | [id' Hop']]].
    + left. apply elem_of_app. left. exact Hc.
    + destruct (decide (id = id')) as [<- | Hne].
      * left. apply elem_of_app. right. apply list_elem_of_singleton. congruence.
      * right. exists id'. rewrite lookup_delete_ne by exact Hne. exact Hop'.
  - exact I4.
  - apply NoDup_app. split; [exact I5|]. split; [|apply NoDup_singleton].
    intros r' Hin Hin'. apply list_elem_of_singleton in Hin'. subst r'. exact (Hrc Hin).
  - intros r1 r2 t1 t2 H1 H2 Ho1 Ho2 Heq.
    destruct (Hlook r1 t1 Ho1) as (u1 & Hu1 & Hi1 & _).
    destruct (Hlook r2 t2 Ho2) as (u2 & Hu2 & Hi2 & _).
    apply (I6 r1 r2 u1 u2 H1 H2 Hu1 Hu2). congruence.
Qed.

Lemma ledger_inv_exit_via close id self :
  (forall t, 0 < entry_price t ->
     exists t' v, close t = (Returns tt, t') /\ pnl t' = Some v /\
                  trade_id t' = trade_id t /\ entry_price t' = entry_price t) ->
  ledger_inv self -> ledger_inv (snd (exit_via close id self)).
Proof.
  intros Hclose Hinv. destruct (open_trades self !! id) as [r|] eqn:Hop.
  - pose proof Hinv as (I1 & _).
    destruct (I1 id r Hop) as (t & Ho & _ & Hen & _).
    destruct (Hclose t Hen) as (t' & v & Hc & Hv & Hid' & Hen').
    rewrite (exit_via_present close id self r t t' v Hop Ho Hc Hv). simpl.
    eapply ledger_inv_moved; eassumption.
  - rewrite exit_via_absent by exact Hop. exact Hinv.
Qed.

Lemma ledger_inv_exec c self : ledger_inv self -> ledger_inv (exec c self).
Proof.
  intros Hinv. destruct c; simpl.
  - apply ledger_inv_enter_trade, Hinv.
  - rewrite exit_trade_at_target_via. apply ledger_inv_exit_via; [|exact Hinv].
    intros t Hen. rewrite close_at_target_returns by exact Hen.
    do 2 eexists. repeat split.
  - rewrite exit_trade_at_stop_loss_via. apply ledger_inv_exit_via; [|exact Hinv].
    intros t Hen. rewrite close_at_stop_loss_returns by exact Hen.
    do 2 eexists. repeat split.
  - rewrite exit_trade_at_price_via. apply ledger_inv_exit_via; [|exact Hinv].
    intros t Hen. rewrite close_at_price_returns by exact Hen.
    do 2 eexists. repeat split.
Qed.

Lemma ledger_inv_exec_all cs self :
  ledger_inv self -> ledger_inv (exec_all cs self).
Proof.
  revert self. induction cs as [|c cs IH]; intros self Hinv; [exact Hinv|].
  simpl. apply IH, ledger_inv_exec, Hinv.
Qed.

(** *** Identifiers *)

Lemma NoDup_omap_inj {A B} (f : A -> option B) (l : list A) :
  NoDup l ->
  (forall x y z, x ∈ l -> y ∈ l -> f x = Some z -> f y = Some z -> x = y) ->
  NoDup (omap f l).
Proof.
  induction 1 as [|x l Hx Hl IH]; intros Hinj; [constructor|].
  cbn [omap list_omap]. destruct (f x) as [z|] eqn:E.
  - constructor.
    + intros Hz. apply list_elem_of_omap in Hz as (y & Hy & Hfy).
      apply Hx. rewrite (Hinj x y z); [exact Hy | left | right; exact Hy | exact E | exact Hfy].
    + apply IH. intros a b c Ha Hb. apply Hinj; right; assumption.
  - apply IH. intros a b c Ha Hb. apply Hinj; right; assumption.
Qed.

Lemma ids_at_NoDup self (rs : list ref) :
  ledger_inv self -> NoDup rs -> (forall r : ref, r ∈ rs -> r ∈ trades self) ->
  NoDup (ids_at self rs).
Proof.
  intros (_ & _ & _ & _ & _ & I6) Hnd Hsub. apply NoDup_omap_inj; [exact Hnd|].
  intros r1 r2 id H1 H2 Hf1 Hf2.
  destruct (objects self !! r1) as [t1|] eqn:E1; [|discriminate Hf1].
  destruct (objects self !! r2) as [t2|] eqn:E2; [|discriminate Hf2].
  simpl in Hf1, Hf2. injection Hf1 as Hf1. injection Hf2 as Hf2.
  apply (I6 r1 r2 t1 t2); auto. congruence.
Qed.

Lemma ids_at_length self (rs : list ref) :
  (forall r : ref, r ∈ rs -> is_Some (objects self !! r)) ->
  length (ids_at self rs) = length rs.
Proof.
  unfold ids_at. induction rs as [|r rs IH]; intros Hb; [reflexivity|].
  cbn [omap list_omap]. destruct (Hb r) as [t Ht]; [left|]. rewrite Ht. simpl.
  f_equal. apply IH. intros r' Hr'. apply Hb. right. exact Hr'.
Qed.

Lemma open_closed_disjoint self id :
  ledger_inv self -> is_Some (open_trades self !! id) ->
  id ∉ ids_at self (closed_trades self).
Proof.
  intros (I1 & I2 & _ & _ & _ & I6) [r Hop] Hin.
  apply ids_at_elem in Hin as (r' & t' & Hr' & Ho' & Hid').
  destruct (I1 id r Hop) as (t & Ho & Hid & _ & Hrt & Hrc).
  apply Hrc. rewrite (I6 r r' t t' Hrt (I2 r' Hr') Ho Ho'); [exact Hr' | congruence].
Qed.

Lemma all_ids_open_or_closed self id :
  ledger_inv self ->
  id ∈ ids_at self (trades self) <->
  is_Some (open_trades self !! id) \/ id ∈ ids_at self (closed_trades self).
Proof.
  intros (I1 & I2 & I3 & _). rewrite !ids_at_elem. split.
  - intros (r & t & Hr & Ho & Hid). destruct (I3 r Hr) as [_ [Hc | [id' Hop]]].
    + right. exists r, t. auto.
    + left. destruct (I1 id' r Hop) as (t1 & Ho1 & Hid1 & _).
      rewrite Ho in Ho1. injection Ho1 as <-. exists r. congruence.
  - intros [[r Hop] | (r & t & Hr & Ho & Hid)].
    + destruct (I1 id r Hop) as (t & Ho & Hid & _ & Hrt & _). exists r, t. auto.
    + exists r, t. auto.
Qed.

(** C3.  [enter_trade] raises [ValueError] and leaves the ledger (and every
    trade object) as it was when the id is in the open mapping or in the
    closed sequence, or one of entry, stop, target, quantity is [<= 0], or
    [stop >= entry], or [target <= entry]; otherwise it returns a new trade
    in OPEN status, appended to [trades] and added to [open_trades].  On a
    ledger that satisfies the invariant, as every ledger reached by calls
    does, an id that was ever used (it is the id of a trade of [trades]) is
    rejected in this way. *)
Theorem enter_trade_spec (self : PaperTrader) (now : datetime) (id : string)
    (e s t q : Q) (et : option datetime) :
  closed_bound self ->
  (rejects self id e s t q ->
     exists msg, enter_trade now id e s t q et self = (Raises (ValueError msg), self)) /\
  (~ rejects self id e s t q ->
     let r := length (objects self) in
     let tr := Trade__init__ now id e s t q et in
     enter_trade now id e s t q et self =
       (Returns r,
        mk_pt (objects self ++ [tr]) (trades self ++ [r])
              (<[id := r]> (open_trades self)) (closed_trades self)
              (total_pnl self)) /\
     status tr = OPEN /\ trade_id tr = id) /\
  (ledger_inv self -> id ∈ ids_at self (trades self) ->
     exists msg, enter_trade now id e s t q et self = (Raises (ValueError msg), self)).
Proof.
  intros Hb. destruct (enter_trade_cases self now id e s t q et Hb) as [Hr Ha].
  split; [exact Hr|]. split; [exact Ha|].
  intros Hinv Hid. apply Hr. unfold rejects.
  apply (all_ids_open_or_closed self id Hinv) in Hid as [Ho | Hc]; tauto.
Qed.

Lemma enter_trade_spec_witness :
  let now := mk_datetime 1 0 in
  let st1 := snd (enter_trade now "T1" 100 95 110 10 None PaperTrader__init__) in
  (exists msg,
     enter_trade now "T1" 100 95 110 10 None st1 = (Raises (ValueError msg), st1)) /\
  fst (enter_trade now "T2" 50 45 60 1 None st1) = Returns 1%nat.
Proof.
  intros now st1. split.
  - destruct (enter_trade_spec st1 now "T1" 100 95 110 10 None) as (H & _ & _).
    + constructor.
    + apply H. left. exists 0%nat. vm_compute. reflexivity.
  - destruct (enter_trade_spec st1 now "T2" 50 45 60 1 None) as (_ & H & _).
    + constructor.
    + destruct H as (-> & _).
      * intros [[r Hr] | [Hc | Hq]].
        -- vm_compute in Hr. discriminate Hr.
        -- vm_compute in Hc. inversion Hc.
        -- vm_compute in Hq. intuition discriminate.
      * reflexivity.
Defined.

(** C7.  In the ledger reached by any sequence of [enter_trade] and
    [exit_trade_at_*] calls: no id is both open and closed; the ids of the
    closed sequence and the ids of [trades] are duplicate-free, every
    reference being bound; and the ids of [trades] are, up to order, the
    keys of the open mapping followed by the ids of the closed sequence, so
    no id occurs twice across the open mapping and the closed sequence. *)
Theorem ids_unique (cs : list call) :
  let self := exec_all cs PaperTrader__init__ in
  let open_ids := (map_to_list (open_trades self)).*1 in
  let closed_ids := ids_at self (closed_trades self) in
  let all_ids := ids_at self (trades self) in
  (forall id : string, ~ (id ∈ open_ids /\ id ∈ closed_ids)) /\
  NoDup closed_ids /\
  NoDup all_ids /\
  NoDup (open_ids ++ closed_ids) /\
  all_ids ≡ₚ open_ids ++ closed_ids /\
  length all_ids = length (trades self) /\
  length closed_ids = length (closed_trades self).
Proof.
  intros self open_ids closed_ids all_ids.
  assert (ledger_inv self) as Hinv.
  { apply ledger_inv_exec_all, ledger_inv_init. }
  assert (forall id : string, id ∈ open_ids <-> is_Some (open_trades self !! id)) as Hopen.
  { intros id. unfold open_ids. rewrite list_elem_of_fmap. split.
    - intros ([id' r] & -> & Hin). apply elem_of_map_to_list in Hin.
      exists r. exact Hin.
    - intros [r Hr]. exists (id, r). split; [reflexivity|].
      apply elem_of_map_to_list. exact Hr. }
  pose proof Hinv as (_ & I2 & I3 & I4 & I5 & _).
  assert (forall id : string, ~ (id ∈ open_ids /\ id ∈ closed_ids)) as Hdisj.
  { intros id [Ho Hc]. apply Hopen in Ho.
    exact (open_closed_disjoint self id Hinv Ho Hc). }
  assert (NoDup closed_ids) as Hndc.
  { apply ids_at_NoDup; assumption. }
  assert (NoDup all_ids) as Hnda.
  { apply ids_at_NoDup; auto. }
  assert (NoDup (open_ids ++ closed_ids)) as Hndu.
  { apply NoDup_app. split; [apply NoDup_fst_map_to_list|].
    split; [|exact Hndc]. intros id Ho Hc. exact (Hdisj id (conj Ho Hc)). }
  split; [exact Hdisj|]. split; [exact Hndc|]. split; [exact Hnda|].
  split; [exact Hndu|]. split; [|split].
  - apply NoDup_Permutation; [exact Hnda | exact Hndu |].
    intros id. rewrite elem_of_app, Hopen. apply all_ids_open_or_closed, Hinv.
  - apply ids_at_length. intros r Hr. apply I3, Hr.
  - apply ids_at_length. intros r Hr. apply I3, I2, Hr.
Qed.

(** *** Statistics *)

Lemma winning_count_filter ts :
  length (List.filter is_winner ts) = winning_count ts.
Proof.
  induction ts as [|t ts IH]; [reflexivity|].
  simpl. unfold is_winner at 1. destruct (pnl t) as [p|]; [|exact IH].
  destruct (Qltb 0 p); simpl; rewrite IH; reflexivity.
Qed.

Lemma winning_count_no_pnl ts : omap pnl ts = [] -> winning_count ts = 0%nat.
Proof.
  induction ts as [|t ts IH]; [reflexivity|].
  cbn [omap list_omap]. simpl. destruct (pnl t) as [p|]; [discriminate|exact IH].
Qed.

Lemma get_win_rate_returns self ts :
  deref_all (closed_trades self) self = (Returns ts, self) ->
  get_win_rate self =
    (Returns match ts with
             | [] => 0
             | _ => (Qnat (winning_count ts) / Qnat (length ts)) * 100
             end, self).
Proof.
  intros Hd. unfold get_win_rate. cbv [mbind M_bind get]. rewrite Hd.
  destruct ts as [|t ts]; [reflexivity|].
  rewrite winning_count_filter. reflexivity.
Qed.

(** C8.  On a ledger whose closed references are bound, with [ts] the closed
    trades: [get_win_rate] and [get_statistics] return and leave the ledger
    as it was; the win rate is 0 with no closed trade and
    [winning / closed * 100] otherwise; the profit factor is 0 when the
    gross loss is 0, also with a positive gross profit, and
    [gross profit / gross loss] otherwise. *)
Theorem statistics_spec (self : PaperTrader) :
  closed_bound self ->
  exists (ts : list Trade) (wr : Q) (stats : Statistics),
    Forall2 (fun (r : ref) t => objects self !! r = Some t) (closed_trades self) ts /\
    get_win_rate self = (Returns wr, self) /\
    get_statistics self = (Returns stats, self) /\
    win_rate stats == wr /\
    (ts = [] -> wr = 0) /\
    (ts <> [] -> wr = (Qnat (winning_count ts) / Qnat (length ts)) * 100) /\
    (gross_loss ts == 0 -> profit_factor stats = 0) /\
    (~ gross_loss ts == 0 ->
       profit_factor stats = gross_profit ts / gross_loss ts).
Proof.
  intros Hb. destruct (deref_all_closed self Hb) as (ts & Hd & Hf & _).
  pose proof (get_win_rate_returns self ts Hd) as Hwr.
  exists ts. eexists. 
  assert (exists stats, get_statistics self = (Returns stats, self) /\
            win_rate stats ==
              match ts with
              | [] => 0
              | _ => (Qnat (winning_count ts) / Qnat (length ts)) * 100
              end /\
            profit_factor stats =
              if Qltb 0 (gross_loss ts) then gross_profit ts / gross_loss ts else 0)
    as (stats & Hs & Hw & Hp).
  { unfold get_statistics, get_pnl_list. cbv [mbind M_bind get]. rewrite Hd.
    cbv [mret M_ret]. unfold gross_loss, gross_profit.
    destruct (omap pnl ts) as [|p ps] eqn:Ep.
    - eexists. split; [reflexivity|]. simpl. split; [|reflexivity].
      destruct ts as [|t ts']; [reflexivity|].
      rewrite (winning_count_no_pnl _ Ep). unfold Qdiv.
      change (Qnat 0) with 0. ring.
    - rewrite Hwr. eexists. split; [reflexivity|]. simpl.
      split; reflexivity. }
  exists stats. split; [exact Hf|]. split; [exact Hwr|]. split; [exact Hs|].
  split; [exact Hw|]. split; [intros ->; reflexivity|].
  split; [destruct ts; [congruence | reflexivity]|].
  rewrite Hp. split.
  - intros H0. destruct (Qltb 0 (gross_loss ts)) eqn:E; [|reflexivity].
    apply Qltb_lt in E. rewrite H0 in E. exfalso. apply (Qlt_irrefl 0), E.
  - intros Hn. destruct (Qltb 0 (gross_loss ts)) eqn:E; [reflexivity|].
    apply Qltb_ge in E. exfalso. apply Hn. apply Qle_antisym; [exact E|].
    apply Qabs_nonneg.
Qed.

Lemma statistics_spec_witness :
  let now := mk_datetime 1 0 in
  let st1 := snd (enter_trade now "T1" 100 95 110 10 None PaperTrader__init__) in
  let st2 := snd (exit_trade_at_target now "T1" None st1) in
  exists stats,
    get_statistics st2 = (Returns stats, st2) /\
    profit_factor stats = 0 /\ win_rate stats == 100.
Proof.
  intros now st1 st2.
  destruct (statistics_spec st2)
    as (ts & wr & stats & Hf & Hwr & Hs & Hw & _ & Hne & Hz & _).
  { repeat constructor. exists (closed_as (Trade__init__ now "T1" 100 95 110 10 None)
                                  110 now CLOSED_PROFIT "TARGET_HIT").
    reflexivity. }
  exists stats. split; [exact Hs|].
  assert (ts = [closed_as (Trade__init__ now "T1" 100 95 110 10 None)
                  110 now CLOSED_PROFIT "TARGET_HIT"]) as ->.
  { inversion Hf as [|r t rs ts' Hr Hrest]; subst.
    inversion Hrest; subst. vm_compute in Hr. injection Hr as <-. reflexivity. }
  split.
  - apply Hz. reflexivity.
  - rewrite Hw, Hne by discriminate. reflexivity.
Defined.

(** The degenerate profit factor: two winning trades and no loss. *)
Example all_winners_profit_factor :
  let now := mk_datetime 1 0 in
  let s1 := snd (enter_trade now "T1" 100 95 110 10 None PaperTrader__init__) in
  let s2 := snd (exit_trade_at_target now "T1" None s1) in
  let s3 := snd (enter_trade now "T2" 50 45 60 1 None s2) in
  let s4 := snd (exit_trade_at_price now "T2" 55 None "MANUAL_EXIT" s3) in
  exists stats,
    get_statistics s4 = (Returns stats, s4) /\
    profit_factor stats = 0 /\ win_rate stats == 100 /\
    stats_total_pnl stats == 105.
Proof. vm_compute. eexists. repeat split. Qed.

(** *** The records of the ledger *)

Lemma omap_agree {A B} (f g : A -> option B) (l : list A) :
  (forall x, x ∈ l -> f x = g x) -> omap f l = omap g l.
Proof.
  induction l as [|x l IH]; intros H; [reflexivity|].
  cbn [omap list_omap]. rewrite <- (H x) by left.
  rewrite IH by (intros y Hy; apply H; right; exact Hy). reflexivity.
Qed.

Lemma py_sum_app_one (l : list Q) (p : Q) : py_sum (l ++ [p]) = py_sum l + p.
Proof. unfold py_sum. rewrite fold_left_app. reflexivity. Qed.

Lemma valid_prices_entry t : valid_prices t -> 0 < entry_price t.
Proof. intros (Hs & Hse & _). apply Qlt_trans with (stop_loss t); assumption. Qed.

Lemma close_at_target_well now et : closes_well (close_at_target now et).
Proof.
  intros t Hv. do 4 eexists.
  split; [apply close_at_target_returns, valid_prices_entry, Hv|].
  simpl. apply Qle_refl.
Qed.

Lemma close_at_stop_loss_well now et : closes_well (close_at_stop_loss now et).
Proof.
  intros t Hv. do 4 eexists.
  split; [apply close_at_stop_loss_returns, valid_prices_entry, Hv|].
  simpl. apply Qle_refl.
Qed.

Lemma close_at_price_well now p et reason :
  closes_well (close_at_price now p et reason).
Proof.
  intros t Hv. do 4 eexists.
  split; [apply close_at_price_returns, valid_prices_entry, Hv|].
  unfold status_at_price.
  destruct (Qleb (target_price t) p) eqn:E1; [apply Qleb_le, E1|].
  destruct (Qleb p (stop_loss t)) eqn:E2; [apply Qleb_le, E2|].
  split; [apply Qleb_gt, E2 | apply Qleb_gt, E1].
Qed.

Lemma records_inv_init : records_inv PaperTrader__init__.
Proof.
  split; [|split].
  - intros id r t H. simpl in H. rewrite lookup_empty in H. discriminate H.
  - intros r t H. inversion H.
  - reflexivity.
Qed.

Lemma records_inv_entered self now id e s t q et :
  ledger_inv self -> records_inv self -> ~ rejects self id e s t q ->
  records_inv
    (mk_pt (objects self ++ [Trade__init__ now id e s t q et])
           (trades self ++ [length (objects self)])
           (<[id := length (objects self)]> (open_trades self))
           (closed_trades self) (total_pnl self)).
Proof.
  intros (I1 & I2 & I3 & _) (R1 & R2 & R3) Hrej.
  assert (forall r : ref, r ∈ closed_trades self ->
            (objects self ++ [Trade__init__ now id e s t q et]) !! r
            = objects self !! r) as Hold.
  { intros r Hr. apply lookup_app_l, lookup_lt_is_Some, I3, I2, Hr. }
  split; [|split]; simpl.
  - intros id' r t0 Hl Ho. destruct (decide (id = id')) as [<- | Hne].
    + rewrite lookup_insert_eq in Hl. injection Hl as <-.
      rewrite list_lookup_middle in Ho by reflexivity. injection Ho as <-.
      split; [repeat split|]. unfold valid_prices, rejects in *. simpl.
      repeat split; apply Qnot_le_lt; intros H; apply Hrej; tauto.
    + rewrite lookup_insert_ne in Hl by exact Hne.
      destruct (I1 id' r Hl) as (t1 & Ho1 & _).
      rewrite (lookup_app_l_Some _ _ _ _ Ho1) in Ho. injection Ho as <-.
      apply (R1 id' r t1 Hl Ho1).
  - intros r t0 Hr Ho. rewrite Hold in Ho by exact Hr. apply (R2 r t0 Hr Ho).
  - rewrite R3. unfold closed_pnls. simpl. f_equal. apply omap_agree.
    intros r Hr. rewrite Hold by exact Hr. reflexivity.
Qed.

Lemma records_inv_moved self id r t e et st reason :
  ledger_inv self -> records_inv self ->
  open_trades self !! id = Some r ->
  objects self !! r = Some t ->
  status_fits t e st ->
  records_inv (moved_to_closed self id r (closed_as t e et st reason)
                 ((e - entry_price t) * quantity t)).
Proof.
  intros (I1 & _) (R1 & R2 & R3) Hop Hr Hfit.
  destruct (I1 id r Hop) as (t0 & Ho0 & Hid0 & _ & _ & Hrc).
  rewrite Hr in Ho0. injection Ho0 as <-.
  assert (r < length (objects self))%nat as Hrlt by (eapply lookup_lt_Some; exact Hr).
  destruct (R1 id r t Hop Hr) as [_ Hv].
  split; [|split]; unfold moved_to_closed; simpl.
  - intros id' r' t1 Hl Ho. apply lookup_delete_Some in Hl as [Hne Hl].
    destruct (I1 id' r' Hl) as (t2 & Ho2 & Hid2 & _).
    assert (r <> r') as Hrr.
    { intros <-. rewrite Hr in Ho2. injection Ho2 as <-. congruence. }
    rewrite list_lookup_insert_ne in Ho by exact Hrr. apply (R1 id' r' t1 Hl Ho).
  - intros r' t1 Hin Ho. apply elem_of_app in Hin as [Hin | Hin].
    + rewrite list_lookup_insert_ne in Ho by (intros ->; exact (Hrc Hin)).
      apply (R2 r' t1 Hin Ho).
    + apply list_elem_of_singleton in Hin. subst r'.
      rewrite list_lookup_insert_eq in Ho by exact Hrlt. injection Ho as <-.
      split; [|exact Hv]. exists e. simpl.
      repeat split; try (eexists; reflexivity). destruct st; exact Hfit.
  - unfold closed_pnls. simpl. rewrite omap_app.
    cbn [omap list_omap]. rewrite list_lookup_insert_eq by exact Hrlt. simpl.
    rewrite py_sum_app_one, R3. f_equal. f_equal. apply omap_agree.
    intros r' Hin. rewrite list_lookup_insert_ne by (intros ->; exact (Hrc Hin)).
    reflexivity.
Qed.

Lemma full_inv_init : full_inv PaperTrader__init__.
Proof. split; [apply ledger_inv_init | apply records_inv_init]. Qed.

Lemma grows_refl s : grows s s.
Proof. split; [reflexivity|]. split; [reflexivity|]. reflexivity. Qed.

Lemma grows_trans s1 s2 s3 : grows s1 s2 -> grows s2 s3 -> grows s1 s3.
Proof.
  intros (T1 & C1 & O1) (T2 & C2 & O2).
  split; [etransitivity; eassumption|]. split; [etransitivity; eassumption|].
  intros r Hr. rewrite O2, O1; [reflexivity | exact Hr |].
  destruct C1 as [k ->]. apply elem_of_app. left. exact Hr.
Qed.

(** One call, from a ledger that satisfies the invariants: they hold after
    it and the ledger has only grown. *)
Lemma enter_trade_step self now id e s t q et :
  full_inv self ->
  full_inv (snd (enter_trade now id e s t q et self)) /\
  grows self (snd (enter_trade now id e s t q et self)).
Proof.
  intros [Hinv Hrec].
  destruct (enter_trade_cases self now id e s t q et (ledger_inv_closed_bound _ Hinv))
    as [Hr Ha].
  destruct (rejects_dec self id e s t q) as [H | H].
  - destruct (Hr H) as [msg ->]. simpl. split; [split; assumption | apply grows_refl].
  - destruct (Ha H) as (-> & _). simpl. split.
    + split; [apply ledger_inv_entered | apply records_inv_entered]; assumption.
    + split; [apply prefix_app_r; reflexivity|]. split; [reflexivity|]. simpl.
      intros r Hr'. apply lookup_app_l, lookup_lt_is_Some.
      destruct Hinv as (_ & I2 & I3 & _). apply I3, I2, Hr'.
Qed.

Lemma exit_via_step close id self :
  closes_well close -> full_inv self ->
  full_inv (snd (exit_via close id self)) /\
  grows self (snd (exit_via close id self)) /\
  match open_trades self !! id with
  | None => exit_via close id self = (Returns false, self)
  | Some r =>
      exists t e et st reason,
        objects self !! r = Some t /\ valid_prices t /\ open_record t /\
        close t = (Returns tt, closed_as t e et st reason) /\
        status_fits t e st /\
        exit_via close id self =
          (Returns true,
           moved_to_closed self id r (closed_as t e et st reason)
             ((e - entry_price t) * quantity t))
  end.
Proof.
  intros Hclose [Hinv Hrec]. destruct (open_trades self !! id) as [r|] eqn:Hop.
  - pose proof Hinv as (I1 & _). pose proof Hrec as (R1 & _).
    destruct (I1 id r Hop) as (t & Ho & _ & _ & _ & Hrc).
    destruct (R1 id r t Hop Ho) as [Hopen Hv].
    destruct (Hclose t Hv) as (e & et & st & reason & Hc & Hfit).
    pose proof (exit_via_present close id self r t (closed_as t e et st reason)
                  ((e - entry_price t) * quantity t) Hop Ho Hc eq_refl) as He.
    rewrite He. simpl. split; [|split].
    + split; [eapply ledger_inv_moved; eauto | eapply records_inv_moved; eauto].
    + split; [reflexivity|]. split; [apply prefix_app_r; reflexivity|].
      simpl. intros r' Hr'. apply list_lookup_insert_ne. intros ->. exact (Hrc Hr').
    + exists t, e, et, st, reason.
      split; [exact Ho|]. split; [exact Hv|]. split; [exact Hopen|].
      split; [exact Hc|]. split; [exact Hfit | reflexivity].
  - rewrite exit_via_absent by exact Hop. simpl.
    split; [split; assumption|]. split; [apply grows_refl | reflexivity].
Qed.

Lemma exec_step c self :
  full_inv self -> full_inv (exec c self) /\ grows self (exec c self).
Proof.
  intros Hinv. destruct c as [now id e s t q et | now id et | now id et | now id p et reason];
    simpl.
  - apply enter_trade_step, Hinv.
  - rewrite exit_trade_at_target_via.
    destruct (exit_via_step _ id self (close_at_target_well now et) Hinv)
      as (H1 & H2 & _). split; assumption.
  - rewrite exit_trade_at_stop_loss_via.
    destruct (exit_via_step _ id self (close_at_stop_loss_well now et) Hinv)
      as (H1 & H2 & _). split; assumption.
  - rewrite exit_trade_at_price_via.
    destruct (exit_via_step _ id self (close_at_price_well now p et reason) Hinv)
      as (H1 & H2 & _). split; assumption.
Qed.

Lemma exec_all_step cs self :
  full_inv self -> full_inv (exec_all cs self) /\ grows self (exec_all cs self).
Proof.
  revert self. induction cs as [|c cs IH]; intros self Hinv.
  - split; [exact Hinv | apply grows_refl].
  - simpl. destruct (exec_step c self Hinv) as [H1 G1].
    destruct (IH _ H1) as [H2 G2]. split; [exact H2|].
    eapply grows_trans; eassumption.
Qed.

Lemma full_inv_reachable cs : full_inv (exec_all cs PaperTrader__init__).
Proof. apply exec_all_step, full_inv_init. Qed.

Lemma closed_pnls_deref self (ts : list Trade) :
  Forall2 (fun (r : ref) t => objects self !! r = Some t) (closed_trades self) ts ->
  closed_pnls self = omap pnl ts.
Proof.
  unfold closed_pnls. generalize (closed_trades self).
  induction 1 as [|r t rs ts Hr _ IH]; [reflexivity|].
  cbn [omap list_omap]. rewrite Hr, IH. reflexivity.
Qed.

(** X7.  On every ledger reached by calls, [get_pnl_list] returns the PnLs
    of the closed trades in closure order and [get_total_pnl] returns their
    sum, neither changing the ledger. *)
Theorem total_pnl_is_sum (cs : list call) :
  let self := exec_all cs PaperTrader__init__ in
  exists l : list Q,
    get_pnl_list self = (Returns l, self) /\
    get_total_pnl self = (Returns (py_sum l), self) /\
    length l = length (closed_trades self).
Proof.
  intros self. destruct (full_inv_reachable cs) as [Hinv (_ & R2 & R3)]. fold self in Hinv, R2, R3.
  destruct (deref_all_closed self (ledger_inv_closed_bound _ Hinv)) as (ts & Hd & Hf & _).
  exists (omap pnl ts). unfold get_pnl_list, get_total_pnl.
  cbv [mbind M_bind get mret M_ret]. rewrite Hd.
  split; [reflexivity|]. split.
  - rewrite R3, (closed_pnls_deref self ts Hf). reflexivity.
  - rewrite (Forall2_length _ _ _ Hf).
    assert (Forall (fun t => is_Some (pnl t)) ts) as Hp.
    { apply Forall_forall. intros t Ht.
      apply list_elem_of_lookup in Ht as [i Hi].
      destruct (Forall2_lookup_r _ _ _ _ _ Hf Hi) as (r & Hr & Ho).
      destruct (R2 r t) as [(e & _ & Hpnl & _) _];
        [apply list_elem_of_lookup; exists i; exact Hr | exact Ho |].
      rewrite Hpnl. eexists. reflexivity. }
    clear -Hp. induction Hp as [|t ts [p Hp] _ IH]; [reflexivity|].
    cbn [omap list_omap]. rewrite Hp. simpl. f_equal. exact IH.
Qed.

(** X8.  On every ledger reached by calls, each open id is bound to a trade
    that carries this id, was never closed (status OPEN, no exit field set)
    and has [0 < stop < entry < target] and [0 < quantity]; each closed
    reference is bound to a trade with the same price ordering whose exit
    fields are all set, whose PnL fields follow the formulas and whose
    status is not OPEN and fits its exit price. *)
Theorem records_of_reachable (cs : list call) :
  let self := exec_all cs PaperTrader__init__ in
  (forall (id : string) (r : ref),
     open_trades self !! id = Some r ->
     exists t, objects self !! r = Some t /\ trade_id t = id /\
               is_open t = true /\ open_record t /\ valid_prices t) /\
  (forall r : ref,
     r ∈ closed_trades self ->
     exists t, objects self !! r = Some t /\
               is_open t = false /\ closed_record t /\ valid_prices t).
Proof.
  intros self.
  destruct (full_inv_reachable cs) as [(I1 & I2 & I3 & _) (R1 & R2 & _)].
  fold self in I1, I2, I3, R1, R2. split.
  - intros id r Hop. destruct (I1 id r Hop) as (t & Ho & Hid & _).
    destruct (R1 id r t Hop Ho) as [Hopen Hv]. exists t.
    split; [exact Ho|]. split; [exact Hid|]. split; [|split; assumption].
    unfold is_open. destruct Hopen as [-> _]. reflexivity.
  - intros r Hr. destruct (I3 r (I2 r Hr)) as [[t Ho] _].
    destruct (R2 r t Hr Ho) as [Hc Hv]. exists t.
    split; [exact Ho|]. split; [|split; assumption].
    destruct Hc as (e & _ & _ & _ & _ & _ & Hfit). unfold is_open.
    destruct (status t); [contradiction | reflexivity..].
Qed.

(** X9.  A closed trade is final in the ledger: whatever calls follow on a
    ledger reached by calls, [trades] and the closed sequence are only
    extended at the end, and every trade that was closed is still the same
    record. *)
Theorem closed_trades_are_final (cs cs' : list call) :
  let self := exec_all cs PaperTrader__init__ in
  let self' := exec_all cs' self in
  trades self `prefix_of` trades self' /\
  closed_trades self `prefix_of` closed_trades self' /\
  forall r : ref, r ∈ closed_trades self -> objects self' !! r = objects self !! r.
Proof.
  intros self self'. apply (exec_all_step cs' self), full_inv_reachable.
Qed.

(** X10.  On every ledger reached by calls, exiting an open trade at its
    target returns true and strictly raises [total_pnl]; exiting it at its
    stop loss returns true and strictly lowers it. *)
Theorem target_wins_stop_loses (cs : list call) (now : datetime) (id : string)
    (et : option datetime) :
  let self := exec_all cs PaperTrader__init__ in
  is_Some (open_trades self !! id) ->
  (exists self', exit_trade_at_target now id et self = (Returns true, self') /\
                 total_pnl self < total_pnl self') /\
  (exists self', exit_trade_at_stop_loss now id et self = (Returns true, self') /\
                 total_pnl self' < total_pnl self).
Proof.
  intros self [r Hop]. pose proof (full_inv_reachable cs) as Hinv. fold self in Hinv.
  rewrite exit_trade_at_target_via, exit_trade_at_stop_loss_via. split.
  - destruct (exit_via_step _ id self (close_at_target_well now et) Hinv) as (_ & _ & H).
    rewrite Hop in H. destruct H as (t & e & et' & st & reason & _ & Hv & _ & Hc & _ & ->).
    rewrite (close_at_target_returns _ _ _ (valid_prices_entry _ Hv)) in Hc.
    injection Hc as <- _ _ _. eexists. split; [reflexivity|]. simpl.
    destruct Hv as (_ & _ & Het & Hq).
    assert (0 < (target_price t - entry_price t) * quantity t) as Hpos.
    { apply Qmult_lt_0_compat; [lra | exact Hq]. }
    set (v := (target_price t - entry_price t) * quantity t) in *. lra.
  - destruct (exit_via_step _ id self (close_at_stop_loss_well now et) Hinv) as (_ & _ & H).
    rewrite Hop in H. destruct H as (t & e & et' & st & reason & _ & Hv & _ & Hc & _ & ->).
    rewrite (close_at_stop_loss_returns _ _ _ (valid_prices_entry _ Hv)) in Hc.
    injection Hc as <- _ _ _. eexists. split; [reflexivity|]. simpl.
    destruct Hv as (_ & Hse & _ & Hq).
    assert (0 < (entry_price t - stop_loss t) * quantity t) as Hpos.
    { apply Qmult_lt_0_compat; [lra | exact Hq]. }
    assert ((stop_loss t - entry_price t) * quantity t
            == - ((entry_price t - stop_loss t) * quantity t)) as Heq by ring.
    set (v := (stop_loss t - entry_price t) * quantity t) in *.
    set (u := (entry_price t - stop_loss t) * quantity t) in *. lra.
Qed.

Lemma target_wins_stop_loses_witness :
  let now := mk_datetime 1 0 in
  let self := exec_all [CallEnterTrade now "T1" 100 95 110 10 None] PaperTrader__init__ in
  exists self', exit_trade_at_stop_loss now "T1" None self = (Returns true, self') /\
                total_pnl self' < total_pnl self.
Proof.
  intros now self.
  apply (target_wins_stop_loses [CallEnterTrade now "T1" 100 95 110 10 None] now "T1" None).
  exists 0%nat. vm_compute. reflexivity.
Defined.

(** X11.  On every ledger reached by calls, a closed trade with status
    CLOSED_PROFIT has a positive PnL and one with status CLOSED_STOPPED a
    negative PnL; no closed trade has status OPEN. *)
Theorem status_gives_pnl_sign (cs : list call) (r : ref) (t : Trade) :
  let self := exec_all cs PaperTrader__init__ in
  r ∈ closed_trades self ->
  objects self !! r = Some t ->
  exists v, pnl t = Some v /\
    status t <> OPEN /\
    (status t = CLOSED_PROFIT -> 0 < v) /\
    (status t = CLOSED_STOPPED -> v < 0).
Proof.
  intros self Hr Ho. destruct (full_inv_reachable cs) as [_ (_ & R2 & _)].
  destruct (R2 r t Hr Ho) as [(e & _ & Hp & _ & _ & _ & Hfit) (_ & Hse & Het & Hq)].
  eexists. split; [exact Hp|]. split; [|split].
  - intros E. rewrite E in Hfit. exact Hfit.
  - intros E. rewrite E in Hfit. simpl in Hfit.
    apply Qmult_lt_0_compat; [lra | exact Hq].
  - intros E. rewrite E in Hfit. simpl in Hfit.
    assert (0 < (entry_price t - e) * quantity t) as Hpos.
    { apply Qmult_lt_0_compat; [lra | exact Hq]. }
    assert ((e - entry_price t) * quantity t
            == - ((entry_price t - e) * quantity t)) as Heq by ring.
    set (v := (e - entry_price t) * quantity t) in *.
    set (u := (entry_price t - e) * quantity t) in *. lra.
Qed.

Lemma status_gives_pnl_sign_witness :
  let now := mk_datetime 1 0 in
  let cs := [CallEnterTrade now "T1" 100 95 110 10 None;
             CallExitAtPrice now "T1" 90 None "MANUAL_EXIT"] in
  exists t v, objects (exec_all cs PaperTrader__init__) !! 0%nat = Some t /\
    status t = CLOSED_STOPPED /\ pnl t = Some v /\ v < 0.
Proof.
  intros now cs.
  destruct (objects (exec_all cs PaperTrader__init__) !! 0%nat) as [t|] eqn:E;
    [|vm_compute in E; discriminate E].
  destruct (status_gives_pnl_sign cs 0%nat t) as (v & Hp & _ & _ & Hneg).
  - vm_compute. left.
  - exact E.
  - exists t, v. vm_compute in E. injection E as <-.
    split; [reflexivity|]. split; [reflexivity|]. split; [exact Hp|].
    apply Hneg. reflexivity.
Defined.

Lemma counted_exec c self : full_inv self -> counted self -> counted (exec c self).
Proof.
  intros Hinv Hc. unfold counted in *.
  assert (forall close id, closes_well close ->
            length (trades (snd (exit_via close id self))) =
            (size (open_trades (snd (exit_via close id self))) +
             length (closed_trades (snd (exit_via close id self))))%nat) as Hexit.
  { intros close id Hw. destruct (exit_via_step close id self Hw Hinv) as (_ & _ & H).
    destruct (open_trades self !! id) as [r|] eqn:Hop.
    - destruct H as (t & e & et & st & reason & _ & _ & _ & _ & _ & ->). simpl.
      rewrite map_size_delete_Some by (exists r; exact Hop).
      rewrite length_app. simpl.
      assert (size (open_trades self) <> 0)%nat as Hne.
      { apply map_size_ne_0_lookup_2 with id. exists r. exact Hop. }
      lia.
    - rewrite H. exact Hc. }
  destruct c as [now id e s t q et | now id et | now id et | now id p et reason]; simpl.
  - destruct Hinv as [Hinv _].
    destruct (enter_trade_cases self now id e s t q et (ledger_inv_closed_bound _ Hinv))
      as [Hr Ha].
    destruct (rejects_dec self id e s t q) as [H | H].
    + destruct (Hr H) as [msg ->]. exact Hc.
    + destruct (Ha H) as (-> & _). simpl. rewrite length_app. simpl.
      rewrite map_size_insert_None; [lia|].
      destruct (open_trades self !! id) as [r|] eqn:E; [|reflexivity].
      exfalso. apply H. left. exists r. exact E.
  - rewrite exit_trade_at_target_via. apply Hexit, close_at_target_well.
  - rewrite exit_trade_at_stop_loss_via. apply Hexit, close_at_stop_loss_well.
  - rewrite exit_trade_at_price_via. apply Hexit, close_at_price_well.
Qed.

Lemma counted_exec_all cs self :
  full_inv self -> counted self -> counted (exec_all cs self).
Proof.
  revert self. induction cs as [|c cs IH]; intros self Hinv Hc; [exact Hc|].
  simpl. apply IH; [apply exec_step, Hinv | apply counted_exec; assumption].
Qed.

Lemma get_statistics_counts self :
  closed_bound self ->
  exists stats, get_statistics self = (Returns stats, self) /\
    total_trades stats = length (trades self) /\
    n_open_trades stats = size (open_trades self) /\
    n_closed_trades stats = length (closed_trades self).
Proof.
  intros Hb. destruct (deref_all_closed self Hb) as (ts & Hd & _ & _).
  pose proof (get_win_rate_returns self ts Hd) as Hwr.
  unfold get_statistics, get_pnl_list. cbv [mbind M_bind get]. rewrite Hd.
  cbv [mret M_ret]. destruct (omap pnl ts) as [|p ps].
  - eexists. split; [reflexivity|]. repeat split.
  - rewrite Hwr. eexists. split; [reflexivity|]. repeat split.
Qed.

(** X12.  On every ledger reached by calls, the number of trades ever
    entered is the number of open trades plus the number of closed trades,
    and [get_statistics] reports these three counts. *)
Theorem trade_counts_add_up (cs : list call) :
  let self := exec_all cs PaperTrader__init__ in
  length (trades self) = (size (open_trades self) + length (closed_trades self))%nat /\
  exists stats, get_statistics self = (Returns stats, self) /\
    total_trades stats = length (trades self) /\
    n_open_trades stats = size (open_trades self) /\
    n_closed_trades stats = length (closed_trades self) /\
    total_trades stats = (n_open_trades stats + n_closed_trades stats)%nat.
Proof.
  intros self.
  assert (counted self) as Hc.
  { apply counted_exec_all; [apply full_inv_init|]. reflexivity. }
  split; [exact Hc|].
  destruct (full_inv_reachable cs) as [Hinv _].
  destruct (get_statistics_counts self (ledger_inv_closed_bound _ Hinv))
    as (stats & Hs & H1 & H2 & H3).
  exists stats. split; [exact Hs|]. split; [exact H1|]. split; [exact H2|].
  split; [exact H3|]. rewrite H1, H2, H3. exact Hc.
Qed.

Lemma find_by_id_returns self id (rs : list ref) :
  (forall r : ref, r ∈ rs -> is_Some (objects self !! r)) ->
  exists res,
    find_by_id id rs self = (Returns res, self) /\
    match res with
    | Some r => r ∈ rs /\ exists t, objects self !! r = Some t /\ trade_id t = id
    | None => forall (r : ref) (t : Trade),
                r ∈ rs -> objects self !! r = Some t -> trade_id t <> id
    end.
Proof.
  induction rs as [|r rs IH]; intros Hb.
  - exists None. split; [reflexivity|]. intros r t H. inversion H.
  - destruct (Hb r) as [t Ht]; [left|].
    simpl. unfold deref. cbv [mbind M_bind]. rewrite Ht.
    destruct (String.eqb (trade_id t) id) eqn:E.
    + apply String.eqb_eq in E. exists (Some r). split; [reflexivity|].
      split; [left|]. exists t. auto.
    + apply String.eqb_neq in E.
      destruct IH as (res & Hres & Hprop); [intros r' Hr'; apply Hb; right; exact Hr'|].
      exists res. split; [exact Hres|]. destruct res as [r'|].
      * destruct Hprop as [Hin Hex]. split; [right; exact Hin | exact Hex].
      * intros r' t' Hin Ho. apply elem_of_cons in Hin as [-> | Hin].
        -- rewrite Ht in Ho. injection Ho as <-. exact E.
        -- apply (Hprop r' t' Hin Ho).
Qed.

(** X13.  On every ledger reached by calls, [get_trade] leaves the ledger
    as it is and returns the trade that carries the id, open or closed,
    when the id was ever entered, and [None] otherwise. *)
Theorem get_trade_finds (cs : list call) (id : string) :
  let self := exec_all cs PaperTrader__init__ in
  (id ∈ ids_at self (trades self) ->
     exists (r : ref) (t : Trade),
       get_trade id self = (Returns (Some r), self) /\
       r ∈ trades self /\ objects self !! r = Some t /\ trade_id t = id) /\
  (id ∉ ids_at self (trades self) ->
     get_trade id self = (Returns None, self)).
Proof.
  intros self. destruct (full_inv_reachable cs) as [Hinv _]. fold self in Hinv.
  pose proof (all_ids_open_or_closed self id Hinv) as Hall.
  pose proof Hinv as (I1 & I2 & I3 & _).
  unfold get_trade. cbv [mbind M_bind get].
  destruct (open_trades self !! id) as [r|] eqn:Hop.
  - destruct (I1 id r Hop) as (t & Ho & Hid & _ & Hrt & _). split.
    + intros _. exists r, t. repeat split; assumption.
    + intros Hn. exfalso. apply Hn, Hall. left. exists r. reflexivity.
  - destruct (find_by_id_returns self id (closed_trades self)) as (res & -> & Hprop).
    { intros r Hr. apply I3, I2, Hr. }
    destruct res as [r|].
    + destruct Hprop as [Hin (t & Ho & Hid)]. split.
      * intros _. exists r, t. repeat split; auto.
      * intros Hn. exfalso. apply Hn, Hall. right. apply ids_at_elem.
        exists r, t. auto.
    + split; [|reflexivity]. intros Hid. apply Hall in Hid as [[r Hr] | Hc].
      * discriminate Hr.
      * apply ids_at_elem in Hc as (r & t & Hr & Ho & Hid).
        exfalso. exact (Hprop r t Hr Ho Hid).
Qed.

Lemma winning_count_le ts : (winning_count ts <= length ts)%nat.
Proof.
  induction ts as [|t ts IH]; simpl; [lia|].
  destruct (pnl t) as [p|]; [destruct (Qltb 0 p)|]; lia.
Qed.

Lemma Qnat_le (n m : nat) : (n <= m)%nat -> Qnat n <= Qnat m.
Proof. intros H. unfold Qnat. rewrite <- Zle_Qle. lia. Qed.

Lemma Qnat_pos (n : nat) : (0 < n)%nat -> 0 < Qnat n.
Proof. intros H. unfold Qnat. change 0 with (inject_Z 0). rewrite <- Zlt_Qlt. lia. Qed.

(** X14.  On a ledger whose closed references are bound, [get_win_rate]
    returns a percentage between 0 and 100 and leaves the ledger as it
    is. *)
Theorem win_rate_bounds (self : PaperTrader) :
  closed_bound self ->
  exists wr, get_win_rate self = (Returns wr, self) /\ 0 <= wr /\ wr <= 100.
Proof.
  intros Hb. destruct (deref_all_closed self Hb) as (ts & Hd & _ & _).
  rewrite (get_win_rate_returns self ts Hd). eexists. split; [reflexivity|].
  destruct ts as [|t ts]; [split; discriminate|].
  pose proof (Qnat_le _ _ (winning_count_le (t :: ts))) as Hle.
  pose proof (Qnat_le 0 _ (Nat.le_0_l (winning_count (t :: ts)))) as Hge.
  assert (0 < Qnat (length (t :: ts))) as Hpos by (apply Qnat_pos; simpl; lia).
  change (Qnat 0) with 0 in Hge.
  set (a := Qnat (winning_count (t :: ts))) in *.
  set (c := Qnat (length (t :: ts))) in *.
  assert (0 <= a / c) as H0.
  { apply Qle_shift_div_l; [exact Hpos|]. lra. }
  assert (a / c <= 1) as H1.
  { apply Qle_shift_div_r; [exact Hpos|]. lra. }
  set (x := a / c) in *. split; lra.
Qed.

Lemma win_rate_bounds_witness :
  let now := mk_datetime 1 0 in
  let self := exec_all [CallEnterTrade now "T1" 100 95 110 10 None;
                        CallExitAtStopLoss now "T1" None] PaperTrader__init__ in
  exists wr, get_win_rate self = (Returns wr, self) /\ 0 <= wr /\ wr <= 100.
Proof.
  intros now self. apply win_rate_bounds.
  repeat constructor. vm_compute. eexists. reflexivity.
Defined.

(** *** Closing twice, and closing with a zero entry price *)

(** X15.  The closes of a [Trade] are not guarded by its status: on a trade
    with a positive entry price, a close followed by a second close returns
    both times, and leaves exactly the record that the second close alone
    leaves on the original trade. *)
Theorem second_close_overwrites (t : Trade) (now1 now2 : datetime)
    (op1 op2 : close_op) :
  0 < entry_price t ->
  exists t1 t2,
    run_close now1 op1 t = (Returns tt, t1) /\
    status t1 <> OPEN /\
    run_close now2 op2 t1 = (Returns tt, t2) /\
    run_close now2 op2 t = (Returns tt, t2).
Proof.
  intros Hen.
  assert (forall now op u, 0 < entry_price u ->
            exists e et st reason,
              run_close now op u = (Returns tt, closed_as u e et st reason) /\
              st <> OPEN /\
              forall u', entry_price u' = entry_price u ->
                         stop_loss u' = stop_loss u ->
                         target_price u' = target_price u ->
                         trade_id u' = trade_id u -> quantity u' = quantity u ->
                         entry_time u' = entry_time u ->
                         run_close now op u' = (Returns tt, closed_as u e et st reason))
    as Hshape.
  { intros now op u Hu. destruct op as [et | et | p et reason]; simpl.
    - do 4 eexists. split; [apply close_at_target_returns, Hu|].
      split; [discriminate|]. intros u' He Hs Ht Hi Hq Htm.
      rewrite close_at_target_returns by (rewrite He; exact Hu).
      unfold closed_as. rewrite He, Hs, Ht, Hi, Hq, Htm. reflexivity.
    - do 4 eexists. split; [apply close_at_stop_loss_returns, Hu|].
      split; [discriminate|]. intros u' He Hs Ht Hi Hq Htm.
      rewrite close_at_stop_loss_returns by (rewrite He; exact Hu).
      unfold closed_as. rewrite He, Hs, Ht, Hi, Hq, Htm. reflexivity.
    - do 4 eexists. split; [apply close_at_price_returns, Hu|].
      split.
      { unfold status_at_price. destruct (Qleb _ _); [discriminate|].
        destruct (Qleb _ _); discriminate. }
      intros u' He Hs Ht Hi Hq Htm.
      rewrite close_at_price_returns by (rewrite He; exact Hu).
      unfold closed_as, status_at_price. rewrite He, Hs, Ht, Hi, Hq, Htm. reflexivity. }
  destruct (Hshape now1 op1 t Hen) as (e1 & et1 & st1 & r1 & H1 & Hst1 & _).
  destruct (Hshape now2 op2 t Hen) as (e2 & et2 & st2 & r2 & H2 & _ & Hany).
  exists (closed_as t e1 et1 st1 r1), (closed_as t e2 et2 st2 r2).
  split; [exact H1|]. split; [exact Hst1|]. split; [|exact H2].
  apply Hany; reflexivity.
Qed.

Lemma second_close_overwrites_witness :
  let now := mk_datetime 1 0 in
  let t := Trade__init__ now "T1" 100 95 110 10 None in
  exists t1 t2,
    run_close now (ByTarget None) t = (Returns tt, t1) /\
    run_close now (ByStopLoss None) t1 = (Returns tt, t2) /\
    run_close now (ByStopLoss None) t = (Returns tt, t2).
Proof.
  intros now t.
  destruct (second_close_overwrites t now now (ByTarget None) (ByStopLoss None))
    as (t1 & t2 & H1 & _ & H2 & H3); [reflexivity|].
  exists t1, t2. auto.
Defined.

(** X16.  On a trade whose entry price is zero every close raises
    [ZeroDivisionError] part-way: the exit price, exit time, exit reason and
    [pnl] are already assigned, [pnl_percent] is not; [close_at_price]
    raises before it assigns the status, the other two after. *)
Theorem close_with_zero_entry_raises (t : Trade) (now : datetime) (op : close_op) :
  entry_price t == 0 ->
  exists t' e,
    run_close now op t = (Raises ZeroDivisionError, t') /\
    exit_price t' = Some e /\
    pnl t' = Some ((e - entry_price t) * quantity t) /\
    pnl_percent t' = pnl_percent t /\
    is_Some (exit_time t') /\ is_Some (exit_reason t') /\
    match op with
    | ByTarget _ => e = target_price t /\ status t' = CLOSED_PROFIT
    | ByStopLoss _ => e = stop_loss t /\ status t' = CLOSED_STOPPED
    | ByPrice p _ _ => e = p /\ status t' = status t
    end.
Proof.
  intros Hz. apply Qeq_bool_iff in Hz.
  destruct op as [et | et | p et reason]; simpl;
    unfold close_at_target, close_at_stop_loss, close_at_price, _calculate_pnl;
    run; rewrite Hz; run;
    do 2 eexists; (split; [reflexivity|]); simpl;
    repeat split; eexists; reflexivity.
Qed.

Lemma close_with_zero_entry_raises_witness :
  let now := mk_datetime 1 0 in
  let t := Trade__init__ now "T0" 0 (-1) 1 1 None in
  exists t', close_at_price now 5 None "MANUAL_EXIT" t = (Raises ZeroDivisionError, t') /\
             status t' = OPEN /\ pnl t' = Some ((5 - 0) * 1).
Proof.
  intros now t.
  destruct (close_with_zero_entry_raises t now (ByPrice 5 None "MANUAL_EXIT"))
    as (t' & e & H & _ & Hp & _ & _ & _ & He & Hs); [reflexivity|].
  exists t'. split; [exact H|]. split; [exact Hs|]. rewrite Hp, He. reflexivity.
Defined.

(** *** Signs of the statistics *)

Lemma fold_sum_nonneg (l : list Q) (a : Q) :
  Forall (fun p => 0 < p) l -> 0 <= a -> 0 <= fold_left Qplus l a.
Proof.
  intros H. revert a. induction H as [|p l Hp _ IH]; intros a Ha; [exact Ha|].
  simpl. apply IH. lra.
Qed.

Lemma fold_sum_nonpos (l : list Q) (a : Q) :
  Forall (fun p => p < 0) l -> a <= 0 -> fold_left Qplus l a <= 0.
Proof.
  intros H. revert a. induction H as [|p l Hp _ IH]; intros a Ha; [exact Ha|].
  simpl. apply IH. lra.
Qed.

Lemma filter_positive (l : list Q) :
  Forall (fun p => 0 < p) (List.filter (fun p => Qltb 0 p) l).
Proof.
  apply Forall_forall. intros p Hp. apply list_elem_of_In, filter_In in Hp as [_ Hp].
  apply Qltb_lt, Hp.
Qed.

Lemma filter_negative (l : list Q) :
  Forall (fun p => p < 0) (List.filter (fun p => Qltb p 0) l).
Proof.
  apply Forall_forall. intros p Hp. apply list_elem_of_In, filter_In in Hp as [_ Hp].
  apply Qltb_lt, Hp.
Qed.

Lemma average_nonneg (l : list Q) :
  Forall (fun p => 0 < p) l ->
  0 <= match l with [] => 0 | _ => py_sum l / Qnat (length l) end.
Proof.
  intros H. destruct l as [|p l]; [discriminate|].
  apply Qle_shift_div_l; [apply Qnat_pos; simpl; lia|].
  pose proof (fold_sum_nonneg (p :: l) 0 H (Qle_refl 0)) as Hs.
  unfold py_sum. set (x := fold_left Qplus (p :: l) 0) in *. lra.
Qed.

Lemma average_nonpos (l : list Q) :
  Forall (fun p => p < 0) l ->
  match l with [] => 0 | _ => py_sum l / Qnat (length l) end <= 0.
Proof.
  intros H. destruct l as [|p l]; [discriminate|].
  apply Qle_shift_div_r; [apply Qnat_pos; simpl; lia|].
  pose proof (fold_sum_nonpos (p :: l) 0 H (Qle_refl 0)) as Hs.
  unfold py_sum. set (x := fold_left Qplus (p :: l) 0) in *. lra.
Qed.

(** X17.  On a ledger whose closed references are bound, [get_statistics]
    returns, leaving the ledger as it is, a profit factor and an average win
    that are never negative and an average loss that is never positive. *)
Theorem statistics_signs (self : PaperTrader) :
  closed_bound self ->
  exists stats, get_statistics self = (Returns stats, self) /\
    0 <= profit_factor stats /\ 0 <= avg_win stats /\ avg_loss stats <= 0.
Proof.
  intros Hb. destruct (deref_all_closed self Hb) as (ts & Hd & _ & _).
  pose proof (get_win_rate_returns self ts Hd) as Hwr.
  unfold get_statistics, get_pnl_list. cbv [mbind M_bind get]. rewrite Hd.
  cbv [mret M_ret]. destruct (omap pnl ts) as [|p ps].
  - eexists. split; [reflexivity|]. simpl. repeat split; discriminate.
  - rewrite Hwr. eexists. split; [reflexivity|].
    cbn [profit_factor avg_win avg_loss]. generalize (p :: ps). intros l.
    split; [|split].
    + destruct (Qltb 0 (Qabs (py_sum (List.filter (fun p => Qltb p 0) l)))) eqn:E;
        [|discriminate].
      apply Qltb_lt in E. apply Qle_shift_div_l; [exact E|].
      pose proof (fold_sum_nonneg _ 0 (filter_positive l) (Qle_refl 0)) as Hs.
      unfold py_sum at 2. set (x := fold_left Qplus _ 0) in *. lra.
    + apply average_nonneg, filter_positive.
    + apply average_nonpos, filter_negative.
Qed.

Lemma statistics_signs_witness :
  let now := mk_datetime 1 0 in
  let self := exec_all [CallEnterTrade now "T1" 100 95 110 10 None;
                        CallExitAtStopLoss now "T1" None] PaperTrader__init__ in
  exists stats, get_statistics self = (Returns stats, self) /\
    0 <= profit_factor stats /\ 0 <= avg_win stats /\ avg_loss stats <= 0.
Proof.
  intros now self. apply statistics_signs.
  repeat constructor. vm_compute. eexists. reflexivity.
Defined.

End Ledger.

(** ** The backtest loop of backtest/backtest.py *)

Module Backtest.
Import backtest.

Lemma py_sum_one_more (l : list Q) (p : Q) : py_sum (l ++ [p]) = py_sum l + p.
Proof. unfold py_sum. rewrite fold_left_app. reflexivity. Qed.

Lemma backtest_loop_snoc df row s :
  backtest_loop (df ++ [row]) s = loop_body row (backtest_loop df s).
Proof. unfold backtest_loop. rewrite fold_left_app. reflexivity. Qed.

(** X21.  On every data frame the total the backtest prints last is the sum
    of the PnLs it printed on its exit lines, in the order of the exits. *)
Theorem total_is_sum_of_exits (df : list main.Row) :
  pnl (script df) = py_sum (omap exit_pnl (stdout (backtest_loop df start))) /\
  last (stdout (script df)) = Some (PrintTotalPnL (pnl (script df))).
Proof.
  split; [|unfold script; simpl; apply last_snoc].
  unfold script. simpl.
  induction df as [|row df IH] using rev_ind; [reflexivity|].
  rewrite backtest_loop_snoc. set (s := backtest_loop df start) in *. clearbody s.
  unfold loop_body. cbv zeta.
  destruct (position s).
  - destruct (Qleb _ _); [|destruct (Qleb _ _)]; simpl;
      rewrite ?omap_app; cbn [omap list_omap exit_pnl];
      rewrite ?py_sum_one_more, ?IH; reflexivity.
  - destruct (_ && _); simpl; [|exact IH].
    rewrite omap_app. cbn [omap list_omap exit_pnl]. rewrite app_nil_r. exact IH.
Qed.

Lemma backtest_loop_keeps (P : State -> Prop) (Q' : main.Row -> Prop) :
  (forall row s, Q' row -> P s -> P (loop_body row s)) ->
  forall df s, Forall Q' df -> P s -> P (backtest_loop df s).
Proof.
  intros Hstep. induction df as [|row df IH]; intros s Hdf Hs; [exact Hs|].
  inversion Hdf as [|? ? Hrow Hrest]; subst. simpl.
  apply IH; [exact Hrest | apply Hstep; assumption].
Qed.

(** X22.  When every close of the data frame is positive, every TARGET HIT
    line the backtest prints carries a positive PnL and every STOP LOSS line
    a negative one. *)
Theorem exits_have_their_sign (df : list main.Row) :
  Forall (fun row => 0 < main.Close row) df ->
  Forall exit_sign (stdout (backtest_loop df start)).
Proof.
  intros Hdf.
  apply (backtest_loop_keeps
           (fun s => (is_Some (position s) -> 0 < entry_price s) /\
                     Forall exit_sign (stdout s))
           (fun row => 0 < main.Close row)); [|exact Hdf|].
  - intros row s Hc [Hen Hall]. unfold loop_body. cbv zeta.
    destruct (position s) as [p|] eqn:Hpos.
    + specialize (Hen (ex_intro _ p eq_refl)).
      destruct (Qleb (entry_price s * (1 + TARGET)) (main.Close row)) eqn:E1.
      * apply Qleb_le in E1. unfold TARGET in E1. simpl. split; [intros [? H]; discriminate H|].
        apply Forall_app. split; [exact Hall|]. constructor; [|constructor].
        simpl. lra.
      * destruct (Qleb (main.Close row) (entry_price s * (1 - STOP_LOSS))) eqn:E2.
        -- apply Qleb_le in E2. unfold STOP_LOSS in E2. simpl.
           split; [intros [? H]; discriminate H|].
           apply Forall_app. split; [exact Hall|]. constructor; [|constructor].
           simpl. lra.
        -- rewrite Hpos. split; [intros _; exact Hen | exact Hall].
    + destruct (_ && _); simpl.
      * split; [intros _; exact Hc|]. apply Forall_app. split; [exact Hall|].
        constructor; [exact I | constructor].
      * rewrite Hpos. split; [intros [? H]; discriminate H | exact Hall].
  - split; [intros [? H]; discriminate H | constructor].
Qed.

Lemma exits_have_their_sign_witness :
  let d := mk_datetime 1 0 in
  Forall exit_sign
    (stdout (backtest_loop [main.mk_sample d 100 90 90; main.mk_sample d 98 90 90] start)).
Proof.
  intros d. apply exits_have_their_sign. repeat constructor.
Defined.

(** *** backtest.py against main.py *)

Lemma signal_is_buy close ema vwap :
  main.signal_of close ema vwap = Some main.BUY <->
  Qltb ema close && Qltb vwap close = true.
Proof.
  unfold main.signal_of. destruct (_ && _); split; intros H;
    try reflexivity; discriminate H.
Qed.

(** One iteration of each loop, when main.py does not block. *)
Lemma agrees_step row b r r' :
  agrees b r ->
  main.outcome_of row r r' ->
  ~ (main.open_position r = None /\
     main.signal_of (main.Close row) (main.EMA row) (main.VWAP row) = Some main.BUY /\
     main.can_trade r = false) ->
  agrees (loop_body row b) r' /\ main.current_day r' = main.current_day r.
Proof.
  intros (Hpos & Hen & Hpnl & Ht & Hs) Ho Hnb. unfold loop_body. cbv zeta.
  destruct Ho as [H1 H2 H3 | H1 H2 H3 | H1 H2 | e H1 H2 H3 | e H1 H2 H3 H4 | e H1 H2 H3 H4].
  - rewrite <- Hpos, H1. apply signal_is_buy in H2. rewrite H2.
    split; [|reflexivity]. repeat split; simpl; auto.
  - exfalso. apply Hnb. auto.
  - rewrite <- Hpos, H1.
    destruct (Qltb _ _ && Qltb _ _) eqn:E.
    + apply signal_is_buy in E. rewrite E in H2. discriminate H2.
    + split; [|reflexivity]. repeat split; auto.
  - rewrite <- Hpos, H1.
    assert (e = entry_price b) as He.
    { rewrite Hen in H2 by (rewrite <- Hpos, H1; eexists; reflexivity).
      injection H2 as <-. reflexivity. }
    subst e.
    rewrite Ht in H3. apply Qleb_le in H3. rewrite H3.
    split; [|reflexivity]. repeat split; simpl; auto.
    + intros [? H]. discriminate H.
    + rewrite Hpnl. reflexivity.
  - rewrite <- Hpos, H1.
    assert (e = entry_price b) as He.
    { rewrite Hen in H2 by (rewrite <- Hpos, H1; eexists; reflexivity).
      injection H2 as <-. reflexivity. }
    subst e.
    rewrite Ht in H3. rewrite Hs in H4.
    apply Qleb_gt in H3. apply Qleb_le in H4. rewrite H3, H4.
    split; [|reflexivity]. repeat split; simpl; auto.
    + intros [? H]. discriminate H.
    + rewrite Hpnl. reflexivity.
  - rewrite <- Hpos, H1.
    assert (e = entry_price b) as He.
    { rewrite Hen in H2 by (rewrite <- Hpos, H1; eexists; reflexivity).
      injection H2 as <-. reflexivity. }
    subst e. rewrite Ht in H3. rewrite Hs in H4.
    apply Qleb_gt in H3, H4. rewrite H3, H4.
    split; [|reflexivity]. repeat split; auto.
Qed.

Lemma agrees_run (d : Z) (df : list main.Row) :
  forall (b : State) (w w' : main.Script),
    main.position_ok w ->
    main.main_loop df w = (Returns tt, w') ->
    main.blocked w' = main.blocked w ->
    agrees b (main.rm w) ->
    (main.current_day (main.rm w) = Some d \/
     (main.current_day (main.rm w) = None /\ position b = None /\ pnl b = 0)) ->
    Forall (fun row => dt_date (main.Date row) = d) df ->
    agrees (backtest_loop df b) (main.rm w').
Proof.
  induction df as [|row df IH]; intros b w w' Hok Hrun Hbl Hag Hday Hdf.
  - simpl in Hrun. injection Hrun as <-. exact Hag.
  - inversion Hdf as [|? ? Hrow Hrest]; subst. simpl in Hrun |- *.
    cbv [mbind M_bind] in Hrun.
    destruct (Loop.loop_body_step row w Hok)
      as (w1 & Hb & Hok1 & _ & _ & _ & Hblk & _).
    destruct (Loop.loop_body_outcome row w Hok) as (w1' & Hb' & Ho).
    rewrite Hb in Hb'. injection Hb' as <-. rewrite Hb in Hrun.
    pose proof (Loop.blocked_monotone_step _ _ _ _ Hb) as Hm1.
    pose proof (Loop.blocked_monotone _ _ _ _ Hrun) as Hm2.
    set (r1 := main.rm (main.at_decision row w)) in *.
    assert (agrees b r1 /\ main.current_day r1 = Some (dt_date (main.Date row)))
      as [Hag1 Hd1].
    { unfold r1. rewrite Loop.rm_at_decision. case_bool_decide as Hd.
      - split; assumption.
      - destruct Hday as [Hday | (Hnone & Hpos & Hpnl)]; [contradiction|].
        destruct Hag as (H1 & H2 & H3 & H4 & H5).
        unfold main.rolled. rewrite Hnone. split; [|reflexivity].
        repeat split; simpl; auto.
        intros [? H]. rewrite Hpos in H. discriminate H. }
    assert (~ (main.open_position r1 = None /\
               main.signal_of (main.Close row) (main.EMA row) (main.VWAP row)
                 = Some main.BUY /\
               main.can_trade r1 = false)) as Hnb.
    { intros (H1 & H2 & H3). specialize (Hblk H1 H2 H3).
      assert (main.blocked w1 = S (main.blocked w)) as Hs; [|lia].
      pose proof (Loop.blocked_at_decision row w) as Hbd.
      unfold main.blocked in *. rewrite Hblk. cbn [main.stdout].
      rewrite List.filter_app, length_app, Hbd. simpl. lia. }
    destruct (agrees_step row b r1 (main.rm w1) Hag1 Ho Hnb) as [Hag' Hcd].
    apply (IH (loop_body row b) w1 w'); auto; [lia|].
    left. rewrite Hcd. exact Hd1.
Qed.

(** X23.  main.py against backtest.py.  With the thresholds of the backtest
    in the configuration and a data frame of a single day, a run of the main
    loop that printed no [Trade blocked] line leaves the [RiskManager] as
    the backtest leaves its variables: the same position, the same entry
    price while one is held, and a [daily_pnl] equal to the backtest's
    [pnl]. *)
Theorem main_agrees_with_backtest (config : main.Config) (df : list main.Row)
    (d : Z) :
  main.cfg_target config = TARGET ->
  main.cfg_stop_loss config = STOP_LOSS ->
  Forall (fun row => dt_date (main.Date row) = d) df ->
  exists w,
    main.main_loop df (main.start config) = (Returns tt, w) /\
    (main.blocked w = 0%nat ->
     let b := backtest_loop df start in
     main.open_position (main.rm w) = position b /\
     (is_Some (position b) -> main.entry_price (main.rm w) = Some (entry_price b)) /\
     main.daily_pnl (main.rm w) = pnl b).
Proof.
  intros Ht Hs Hdf.
  destruct (Loop.main_loop_returns df (main.start config)
              (Loop.position_ok_start config)) as (w & Hrun & _).
  exists w. split; [exact Hrun|]. intros Hbl.
  destruct (agrees_run d df start (main.start config) w) as (H1 & H2 & H3 & _).
  - apply Loop.position_ok_start.
  - exact Hrun.
  - rewrite Hbl. reflexivity.
  - repeat split; simpl; auto. intros [? H]. discriminate H.
  - right. repeat split.
  - exact Hdf.
  - cbv zeta. auto.
Qed.

Lemma main_agrees_with_backtest_witness :
  let cfg := main.mk_config 100000 0.01 0.02 0.01 0.02 true in
  let t c := mk_datetime 1 c in
  let df := [ main.mk_sample (t 1%Z) 100 90 90; main.mk_sample (t 2%Z) 103 90 90;
              main.mk_sample (t 3%Z) 104 90 90; main.mk_sample (t 4%Z) 101 90 90 ] in
  exists w,
    main.main_loop df (main.start cfg) = (Returns tt, w) /\
    main.daily_pnl (main.rm w) = pnl (backtest_loop df start).
Proof.
  intros cfg t df.
  destruct (main_agrees_with_backtest cfg df 1%Z) as (w & Hrun & H);
    [reflexivity | reflexivity | repeat constructor |].
  exists w. split; [exact Hrun|]. apply H.
  vm_compute in Hrun. injection Hrun as <-. reflexivity.
Defined.

End Backtest.
